(** * Stetl: archive expander, file extractor and ETL driver

    A shallow embedding of
      - [stetl/filters/archiveexpander.py]  (ArchiveExpander, ZipArchiveExpander)
      - [stetl/filters/fileextractor.py]    (FileExtractor, ZipFileExtractor,
                                             VsiFileExtractor)
      - [src/setl/etl.py]                   (ETL)
    Python code is written in a state-and-exception monad over a world that
    holds the file system, the log and the GDAL virtual file layer. *)

From Stdlib Require Import ZArith Ascii String List Lia Bool.
From stdpp Require Import base option list gmap strings.

Set Warnings "-register-all".

(** ** Python values, exceptions and outcomes *)

Module Py.

(** The exception classes that the embedded code can raise or meet.
    [KeyboardInterrupt] stands for the exceptions that are not subclasses
    of [Exception]. *)
Inductive exn : Type :=
  | AttributeError
  | KeyError
  | TypeError
  | ValueError
  | OSError
  | NoSectionError
  | NoOptionError
  | ParsingError
  | IndexError
  | KeyboardInterrupt.

Definition is_Exception (e : exn) : bool :=
  match e with
  | KeyboardInterrupt => false
  | _ => true
  end.

(** Outcome of running a piece of Python code: it returns a value, raises,
    or does not return at all ([Diverge], also used by fuel-bounded loops). *)
Inductive Res (A : Type) : Type :=
  | Ok (a : A)
  | Raise (e : exn)
  | Diverge.
Arguments Ok {A} a.
Arguments Raise {A} e.
Arguments Diverge {A}.

(** The payload of a packet, as far as the filters look at it:
    [type(packet.data) == str], [type(packet.data) == dict], [is None]. *)
Inductive Data : Type :=
  | DNone
  | DStr (s : string)
  | DDict (d : gmap string string)
  | DInt (z : Z)
  | DOther (tag : nat).

Definition is_None (d : Data) : bool :=
  match d with DNone => true | _ => false end.

(** What a method hands back to its caller. *)
Inductive Value : Type :=
  | VNone
  | VBool (b : bool).

Definition is_bool (v : Value) : bool :=
  match v with VBool _ => true | VNone => false end.

(** State and exception monad; effects done before a raise persist. *)
Definition M (S A : Type) : Type := S -> Res A * S.

Definition ret {S A} (a : A) : M S A := fun s => (Ok a, s).
Definition raise {S A} (e : exn) : M S A := fun s => (Raise e, s).
Definition bind {S A B} (m : M S A) (k : A -> M S B) : M S B :=
  fun s =>
    match m s with
    | (Ok a, s') => k a s'
    | (Raise e, s') => (Raise e, s')
    | (Diverge, s') => (Diverge, s')
    end.
Definition get {S} : M S S := fun s => (Ok s, s).
Definition modify {S} (f : S -> S) : M S unit := fun s => (Ok tt, f s).

(** The result of a library function that returns or raises. *)
Definition pure {A} (r : exn + A) : Res A :=
  match r with
  | inl e => Raise e
  | inr a => Ok a
  end.

(** A pure computation that may raise, run inside the monad. *)
Definition lift {S A} (r : Res A) : M S A := fun s => (r, s).

(** [try: body / except Exception as e: handler e]. *)
Definition try_except {S A} (body : M S A) (handler : exn -> M S A) : M S A :=
  fun s =>
    match body s with
    | (Raise e, s') => if is_Exception e then handler e s' else (Raise e, s')
    | r => r
    end.

(** [try: body / except: handler]: the bare clause catches everything. *)
Definition try_except_all {S A} (body : M S A) (handler : M S A) : M S A :=
  fun s =>
    match body s with
    | (Raise e, s') => handler s'
    | r => r
    end.

(** [try: body / finally: final]. An exception of [final] replaces the
    pending outcome. *)
Definition try_finally {S A} (body : M S A) (final : M S unit) : M S A :=
  fun s =>
    match body s with
    | (Diverge, s') => (Diverge, s')
    | (r, s') =>
        match final s' with
        | (Ok _, s'') => (r, s'')
        | (Raise e, s'') => (Raise e, s'')
        | (Diverge, s'') => (Diverge, s'')
        end
    end.

(** [m], run from [s], ends in an outcome and a state that satisfy [Q]. *)
Definition holds {S A} (m : M S A) (s : S) (Q : Res A -> S -> Prop) : Prop :=
  Q (fst (m s)) (snd (m s)).

End Py.
Export Py.

Declare Scope py_scope.
Delimit Scope py_scope with py.
Notation "'let*' x := c1 'in' c2" := (bind c1 (fun x => c2))
  (at level 10, x name, c1 at level 100, c2 at level 200) : py_scope.
Notation "c1 >> c2" := (bind c1 (fun _ => c2))
  (at level 100, c2 at level 200, right associativity) : py_scope.
Local Open Scope py_scope.

(** ** Strings *)

Module Str.

Definition slash : ascii := "/"%char.
Definition underscore : ascii := "_"%char.

Definition of_char (c : ascii) : string := String c EmptyString.

(** [s.endswith(c)] for a one-character [c]. *)
Fixpoint ends_with_char (c : ascii) (s : string) : bool :=
  match s with
  | EmptyString => false
  | String a EmptyString => Ascii.eqb a c
  | String _ s' => ends_with_char c s'
  end.

(** [s.startswith(c)] for a one-character [c]. *)
Definition starts_with_char (c : ascii) (s : string) : bool :=
  match s with
  | String a _ => Ascii.eqb a c
  | EmptyString => false
  end.

(** [sub in s]. *)
Fixpoint contains (sub s : string) : bool :=
  String.prefix sub s ||
  match s with
  | EmptyString => false
  | String _ s' => contains sub s'
  end.

(** [s.endswith(suffix)]. *)
Fixpoint endswith (s suffix : string) : bool :=
  String.eqb s suffix ||
  match s with
  | EmptyString => false
  | String _ s' => endswith s' suffix
  end.

(** [s.split(c)] for a one-character separator: never the empty list. *)
Fixpoint split (c : ascii) (s : string) : list string :=
  match s with
  | EmptyString => [EmptyString]
  | String a s' =>
      if Ascii.eqb a c then EmptyString :: split c s'
      else match split c s' with
           | h :: t => String a h :: t
           | [] => [of_char a]
           end
  end.

(** Whitespace as [str.strip()] sees it in an ASCII string. *)
Definition is_space (a : ascii) : bool :=
  let n := nat_of_ascii a in
  ((9 <=? n) && (n <=? 13) || (n =? 32))%nat.

Fixpoint lstrip (s : string) : string :=
  match s with
  | String a s' => if is_space a then lstrip s' else s
  | EmptyString => EmptyString
  end.

Fixpoint rstrip (s : string) : string :=
  match s with
  | EmptyString => EmptyString
  | String a s' =>
      match rstrip s' with
      | EmptyString => if is_space a then EmptyString else of_char a
      | r => String a r
      end
  end.

Definition strip (s : string) : string := rstrip (lstrip s).

(** [s.lower()] on ASCII letters. *)
Definition lower_char (a : ascii) : ascii :=
  let n := nat_of_ascii a in
  if ((65 <=? n) && (n <=? 90))%nat then ascii_of_nat (n + 32) else a.

Fixpoint lower (s : string) : string :=
  match s with
  | EmptyString => EmptyString
  | String a s' => String (lower_char a) (lower s')
  end.

(** The characters the pattern [[^a-zA-Z0-9.]] does not match. *)
Definition is_letter (a : ascii) : bool :=
  let n := nat_of_ascii a in
  ((97 <=? n) && (n <=? 122) || (65 <=? n) && (n <=? 90))%nat.

Definition is_digit (a : ascii) : bool :=
  let n := nat_of_ascii a in ((48 <=? n) && (n <=? 57))%nat.

Definition is_dot (a : ascii) : bool := Ascii.eqb a "."%char.

Definition keeps (a : ascii) : bool := is_letter a || is_digit a || is_dot a.

(** What the substitution makes of one character. *)
Definition sanitize (a : ascii) : ascii :=
  if keeps a then a else underscore.

(** [re.sub(r'[^a-zA-Z0-9.]', '_', name)]: every character the class
    matches is replaced by one underscore. *)
Fixpoint re_sub_unsafe (name : string) : string :=
  match name with
  | EmptyString => EmptyString
  | String a s' => String (sanitize a) (re_sub_unsafe s')
  end.

(** ASCII letters, digits, the dot and the underscore. *)
Definition allowed (a : ascii) : bool :=
  is_letter a || is_digit a || is_dot a || Ascii.eqb a underscore.

Fixpoint chars (s : string) : list ascii :=
  match s with
  | EmptyString => []
  | String a s' => a :: chars s'
  end.

End Str.

(** ** Packets and the log *)

(** Modelled from the spec: [stetl.packet.Packet] is not among the sources;
    the spec gives a packet a payload [data], a [format] tag and the chain
    metadata. The filters read and assign [data] only. *)
Record Packet : Type := mkPacket {
  data : Data;
  format : string;
  meta : gmap string string
}.

Definition set_data (p : Packet) (d : Data) : Packet :=
  {| data := d; format := format p; meta := meta p |}.

(** [packet.data] where [packet] may be [None]. *)
Definition packet_data (packet : option Packet) : Res Data :=
  match packet with
  | Some p => Ok (data p)
  | None => Raise AttributeError
  end.

Inductive Level : Type := INFO | WARN | ERROR.

(** A log call: level, message template and the values formatted into it. *)
Record LogRec : Type := mkLog {
  level : Level;
  template : string;
  log_args : list Data
}.

(** ** The file system behind [os] and [os.path]

    A tree of regular files and directories; a directory keeps its entries
    in the order [os.listdir] reports them. There are no symbolic links and
    the working directory is the root, so a path names a node through its
    components alone; a path with a [..] component names nothing. *)

Module OS.

Inductive node : Type :=
  | File (content : string)
  | Dir (entries : list (string * node)).

Definition is_file (o : option node) : bool :=
  match o with Some (File _) => true | _ => false end.

Definition is_dir (o : option node) : bool :=
  match o with Some (Dir _) => true | _ => false end.

Definition is_file_entry (e : string * node) : bool :=
  match snd e with File _ => true | Dir _ => false end.

(** The first entry called [c]. *)
Fixpoint get_entry (c : string) (es : list (string * node)) : option node :=
  match es with
  | [] => None
  | (c', ch) :: rest => if String.eqb c' c then Some ch else get_entry c rest
  end.

Fixpoint lookup (p : list string) (n : node) : option node :=
  match p with
  | [] => Some n
  | c :: p' =>
      match n with
      | Dir es =>
          match get_entry c es with
          | Some ch => lookup p' ch
          | None => None
          end
      | File _ => None
      end
  end.

(** Rewrites the first entry called [c] with [h]; [h] sees [None] when
    there is no such entry and answers [None] to drop the entry. *)
Fixpoint update_entries (c : string) (h : option node -> option node)
    (es : list (string * node)) : list (string * node) :=
  match es with
  | [] => match h None with Some x => [(c, x)] | None => [] end
  | (c', ch) :: rest =>
      if String.eqb c' c
      then match h (Some ch) with Some x => (c', x) :: rest | None => rest end
      else (c', ch) :: update_entries c h rest
  end.

Fixpoint update (p : list string) (g : option node -> option node)
    (o : option node) : option node :=
  match p with
  | [] => g o
  | c :: p' =>
      match o with
      | Some (Dir es) => Some (Dir (update_entries c (update p' g) es))
      | _ => o
      end
  end.

Definition update_root (p : list string) (g : option node -> option node)
    (root : node) : node :=
  match update p g (Some root) with
  | Some r => r
  | None => root
  end.

(** Replacing and dropping the node at [p]. *)
Definition put (p : list string) (x : node) (root : node) : node :=
  update_root p (fun _ => Some x) root.

Definition del (p : list string) (root : node) : node :=
  update_root p (fun _ => None) root.

(** A name [os.listdir] can report. *)
Definition valid_name (c : string) : bool :=
  negb (String.eqb c EmptyString) &&
  negb (String.eqb c ".") && negb (String.eqb c "..") &&
  forallb (fun a => negb (Ascii.eqb a Str.slash)) (Str.chars c).

(** Does some entry carry the name [c]? *)
Definition has_entry (c : string) (es : list (string * node)) : bool :=
  existsb (fun e => String.eqb (fst e) c) es.

(** A tree a file system can hold: valid names, none twice in a
    directory. *)
Fixpoint wf_node (n : node) : bool :=
  match n with
  | File _ => true
  | Dir es =>
      (fix go (es : list (string * node)) : bool :=
         match es with
         | [] => true
         | (c, ch) :: rest =>
             valid_name c && negb (has_entry c rest) && wf_node ch && go rest
         end) es
  end.

(** The root of a file system is a directory. *)
Definition wf_root (n : node) : bool := is_dir (Some n) && wf_node n.

Fixpoint height (n : node) : nat :=
  match n with
  | File _ => 0
  | Dir es =>
      S ((fix go (es : list (string * node)) : nat :=
            match es with
            | [] => 0
            | (_, ch) :: rest => Nat.max (height ch) (go rest)
            end) es)
  end.

(** The components a path string walks through: empty components and [.]
    are skipped. *)
Definition skipped (c : string) : bool :=
  String.eqb c EmptyString || String.eqb c ".".

Definition resolve (path : string) : list string :=
  List.filter (fun c => negb (skipped c)) (Str.split Str.slash path).

(** [os.path.join(a, b)] (posixpath). *)
Definition join (a b : string) : string :=
  if Str.starts_with_char Str.slash b then b
  else if String.eqb a EmptyString || Str.ends_with_char Str.slash a
       then String.append a b
       else String.append a (String Str.slash b).

End OS.

(** ** GDAL's virtual file layer, as far as [VSIF*L] shows it *)

Module Gdal.

(** An open [VSILFILE]: the bytes of the file and the read position. *)
Record Handle : Type := mkHandle {
  h_content : string;
  h_pos : nat
}.

Record State : Type := mkState {
  vsi_files : gmap string string;   (* what each /vsi path holds *)
  handles : gmap nat Handle         (* the handles that are open *)
}.

End Gdal.

(** ** The world a component runs in *)

Record World : Type := mkWorld {
  fs : OS.node;
  log : list LogRec;
  gdal : Gdal.State
}.

Definition set_fs (w : World) (r : OS.node) : World :=
  {| fs := r; log := log w; gdal := gdal w |}.
Definition set_gdal (w : World) (g : Gdal.State) : World :=
  {| fs := fs w; log := log w; gdal := g |}.
Definition add_log (w : World) (r : LogRec) : World :=
  {| fs := fs w; log := log w ++ [r]; gdal := gdal w |}.

(** An object and the world around it: the state of a method call. *)
Record St (T : Type) : Type := mkSt {
  self : T;
  world : World
}.
Arguments mkSt {T} self world.
Arguments self {T} s.
Arguments world {T} s.

Definition set_self {T} (s : St T) (x : T) : St T := mkSt x (world s).
Definition set_world {T} (s : St T) (w : World) : St T := mkSt (self s) w.

(** Runs code that only touches the world inside a method. *)
Definition in_world {T A} (m : M World A) : M (St T) A :=
  fun s => let (r, w) := m (world s) in (r, set_world s w).

Definition get_self {T} : M (St T) T := fun s => (Ok (self s), s).
Definition put_self {T} (x : T) : M (St T) unit :=
  fun s => (Ok tt, set_self s x).

Module Log.
Definition emit (l : Level) (t : string) (args : list Data) : M World unit :=
  modify (fun w => add_log w (mkLog l t args)).
Definition info := emit INFO.
Definition warn := emit WARN.
Definition warning := emit WARN.
Definition error := emit ERROR.
End Log.

(** ** [os] calls *)

Module os.

(** What a path names; the empty path names nothing. *)
Definition node_at (w : World) (path : string) : option OS.node :=
  match path with
  | EmptyString => None
  | _ => OS.lookup (OS.resolve path) (fs w)
  end.

Module path.
Definition isfile (path : string) : M World bool :=
  fun w => (Ok (OS.is_file (node_at w path)), w).
Definition isdir (path : string) : M World bool :=
  fun w => (Ok (OS.is_dir (node_at w path)), w).
Definition join := OS.join.

(** [os.path.isfile] of an arbitrary object: only [str] is a path. *)
Definition isfile_obj (x : Data) : M World bool :=
  match x with
  | DStr s => isfile s
  | _ => raise TypeError
  end.
End path.

(** [os.listdir(path)]: the names, in directory order. *)
Definition listdir (path : string) : M World (list string) :=
  fun w =>
    match node_at w path with
    | Some (OS.Dir es) => (Ok (map fst es), w)
    | _ => (Raise OSError, w)
    end.

(** [os.remove(path)]: unlinks a regular file. *)
Definition remove (path : string) : M World unit :=
  fun w =>
    match node_at w path with
    | Some (OS.File _) =>
        (Ok tt, set_fs w (OS.del (OS.resolve path) (fs w)))
    | _ => (Raise OSError, w)
    end.

Definition remove_obj (x : Data) : M World unit :=
  match x with
  | DStr s => remove s
  | _ => raise TypeError
  end.

(** [os.rmdir(path)]: removes an empty directory other than the root. *)
Definition rmdir (path : string) : M World unit :=
  fun w =>
    match OS.resolve path, node_at w path with
    | _ :: _, Some (OS.Dir []) =>
        (Ok tt, set_fs w (OS.del (OS.resolve path) (fs w)))
    | _, _ => (Raise OSError, w)
    end.

(** [open(path, 'wb')]: creates or truncates the file; the file object is
    known by its path. *)
Definition open_wb (path : string) : M World string :=
  fun w =>
    match OS.resolve path, node_at w path with
    | [], _ => (Raise OSError, w)
    | _, Some (OS.Dir _) => (Raise OSError, w)
    | p, _ =>
        if OS.is_dir (OS.lookup (removelast p) (fs w))
        then (Ok path, set_fs w (OS.put p (OS.File EmptyString) (fs w)))
        else (Raise OSError, w)
    end.

(** [f.write(buffer)] on a file opened for writing. *)
Definition write (f buffer : string) : M World unit :=
  fun w =>
    match node_at w f with
    | Some (OS.File c) =>
        (Ok tt, set_fs w (OS.put (OS.resolve f)
                            (OS.File (String.append c buffer)) (fs w)))
    | _ => (Raise OSError, w)
    end.

(** [open(path, 'r').read()]. *)
Definition read_file (path : string) : M World string :=
  fun w =>
    match node_at w path with
    | Some (OS.File c) => (Ok c, w)
    | _ => (Raise OSError, w)
    end.

End os.

(** ** Built-ins and libraries taken as given *)

(** The string operators of Python whose full semantics is not spelled out
    here: [fmt % arg] for a [str] argument and [fmt.format( *args )]. *)
Class Builtins : Type := {
  str_mod : string -> string -> exn + string;
  str_format : string -> list string -> exn + string
}.

(** [zipfile]: opening an archive, [z.extractall(path=output_path)], and
    [z.open(name)], which gives the bytes of one member to read. *)
Class ZipLib : Type := {
  Archive : Type;
  ZipFile : string -> M World Archive;
  extractall : Archive -> string -> M World unit;
  zopen : Archive -> string -> M World string
}.

(** ** stetl/filters/archiveexpander.py *)

Module ArchiveExpander.

(** The configured attributes and the one field [invoke] assigns. *)
Record t : Type := mk {
  target_dir : string;
  remove_input_file : bool;
  clear_target_dir : bool;
  input_archive_file : Data
}.

Definition set_input_archive_file (self : t) (d : Data) : t :=
  {| target_dir := target_dir self;
     remove_input_file := remove_input_file self;
     clear_target_dir := clear_target_dir self;
     input_archive_file := d |}.

(** [__init__]: the attributes resolved by the [Config] descriptors, and
    [self.input_archive_file = None]. *)
Definition init (target_dir : string) (remove_input_file clear_target_dir : bool)
    : t :=
  mk target_dir remove_input_file clear_target_dir DNone.

(** The method a derived class overrides. *)
Record Methods : Type := {
  m_expand_archive : Data -> string -> M World unit
}.

Definition safe_filename (name : string) : string := Str.re_sub_unsafe name.

Definition output_path `{Builtins} (self : t) (packet : option Packet)
    : Res string :=
  match packet_data packet with
  | Ok (DStr s) =>
      if Str.contains "%s" (target_dir self)
      then pure (str_mod (target_dir self) (safe_filename s))
      else Ok (target_dir self)
  | Ok _ => Ok (target_dir self)
  | Raise e => Raise e
  | Diverge => Diverge
  end.

Definition remove_file (file_path : Data) : M World unit :=
  let* b := os.path.isfile_obj file_path in
  if b then os.remove_obj file_path else ret tt.

(** The body of the [for] loop of [wipe_dir] over the listing taken at loop
    entry; [rec] is the recursive call. *)
Fixpoint wipe_loop (rec : string -> M World unit) (dir_path : string)
    (names : list string) : M World unit :=
  match names with
  | [] => ret tt
  | file_object :: rest =>
      let file_object_path := os.path.join dir_path file_object in
      let* d := os.path.isdir file_object_path in
      if d then
        rec file_object_path >>
        os.rmdir file_object_path >>
        ret tt
      else
        os.remove file_object_path >>
        wipe_loop rec dir_path rest
  end.

(** [wipe_dir] with a bound on the depth of the recursion. *)
Fixpoint wipe_dir_fuel (fuel : nat) (dir_path : string) : M World unit :=
  match fuel with
  | 0 => fun w => (Diverge, w)
  | S k =>
      let* d := os.path.isdir dir_path in
      if d then
        let* names := os.listdir dir_path in
        wipe_loop (wipe_dir_fuel k) dir_path names
      else ret tt
  end.

(** The recursion goes down one directory level per call, so the height of
    the tree bounds it. *)
Definition wipe_dir (dir_path : string) : M World unit :=
  fun w => wipe_dir_fuel (S (OS.height (fs w))) dir_path w.

(** What [wipe_dir] makes of the tree found at [dir_path], by recursion on
    that tree: [false] when an [os.rmdir] inside met a directory that was
    not empty. Used to reason about [wipe_dir]; see [wipe_dir_fuel_tree]. *)
Definition wipe_entries_with (wipe_tree : OS.node -> bool * OS.node) :=
  fix go (es : list (string * OS.node)) : bool * list (string * OS.node) :=
    match es with
    | [] => (true, [])
    | (c, ch) :: rest =>
        match ch with
        | OS.File _ => go rest
        | OS.Dir _ =>
            match wipe_tree ch with
            | (true, OS.Dir []) => (true, rest)
            | (_, ch') => (false, (c, ch') :: rest)
            end
        end
    end.

Fixpoint wipe_tree (n : OS.node) : bool * OS.node :=
  match n with
  | OS.File _ => (true, n)
  | OS.Dir es =>
      let (ok, es') := wipe_entries_with wipe_tree es in (ok, OS.Dir es')
  end.

Definition wipe_entries := wipe_entries_with wipe_tree.

Definition outcome (ok : bool) : Res unit :=
  if ok then Ok tt else Raise OSError.

Definition expand_archive (packet : Data) (output_path : string) : M World unit :=
  Log.error "Only classes derived from ArchiveExpander can be used!" [].

Definition methods : Methods := {| m_expand_archive := expand_archive |}.

Definition invoke `{Builtins} (cls : Methods) (packet : Packet)
    : M (St t) Packet :=
  if is_None (data packet) then
    in_world (Log.info "Input data is empty" []) >>
    ret packet
  else
    let* self0 := get_self in
    let* formatted_output_path := lift (output_path self0 (Some packet)) in
    in_world (wipe_dir formatted_output_path) >>
    put_self (set_input_archive_file self0 (data packet)) >>
    let* self1 := get_self in
    in_world (m_expand_archive cls (input_archive_file self1)
                formatted_output_path) >>
    let* l := in_world (os.listdir formatted_output_path) in
    match l with
    | [] =>
        in_world (Log.warn "No expanded files in {}"
                    [DStr formatted_output_path]) >>
        ret (set_data packet DNone)
    | _ :: _ =>
        let* l' := in_world (os.listdir formatted_output_path) in
        let file_count := Z.of_nat (length l') in
        in_world (Log.info "Expanded {} into {} OK - filecount={}"
                    [input_archive_file self1; DStr formatted_output_path;
                     DInt file_count]) >>
        ret (set_data packet (DStr formatted_output_path))
    end.

(** The log lines of [invoke]. *)
Definition info_empty : LogRec := mkLog INFO "Input data is empty" [].

Definition warn_no_files (p : string) : LogRec :=
  mkLog WARN "No expanded files in {}" [DStr p].

Definition info_expanded (archive : Data) (p : string) (n : nat) : LogRec :=
  mkLog INFO "Expanded {} into {} OK - filecount={}"
        [archive; DStr p; DInt (Z.of_nat n)].

Definition after_chain_invoke `{Builtins} (packet : option Packet)
    : M (St t) Value :=
  let* self0 := get_self in
  (if remove_input_file self0
   then in_world (remove_file (input_archive_file self0))
   else ret tt) >>
  (if clear_target_dir self0
   then let* p := lift (output_path self0 packet) in in_world (wipe_dir p)
   else ret tt) >>
  ret (VBool true).

End ArchiveExpander.

Module ZipArchiveExpander.

Definition expand_archive `{ZipLib} (file_path : Data) (output_path : string)
    : M World unit :=
  match file_path with
  | DStr s =>
      if negb (Str.endswith (Str.lower s) "zip") then
        Log.warn "No zipfile passed: {}" [file_path]
      else
        let* z := ZipFile s in
        extractall z output_path
  | _ => raise AttributeError
  end.

Definition methods `{ZipLib} : ArchiveExpander.Methods :=
  {| ArchiveExpander.m_expand_archive := expand_archive |}.

End ZipArchiveExpander.

(** ** [gdal.VSIF*L] *)

Module gdal.

Definition get_handle (vsi : option nat) : M World Gdal.Handle :=
  fun w =>
    match vsi with
    | Some h =>
        match Gdal.handles (gdal w) !! h with
        | Some hv => (Ok hv, w)
        | None => (Raise ValueError, w)
        end
    | None => (Raise ValueError, w)
    end.

Definition set_handle (vsi : option nat) (hv : Gdal.Handle) : M World unit :=
  fun w =>
    match vsi with
    | Some h =>
        (Ok tt, set_gdal w (Gdal.mkState (Gdal.vsi_files (gdal w))
                              (<[h := hv]> (Gdal.handles (gdal w)))))
    | None => (Raise ValueError, w)
    end.

(** [VSIFOpenL(path, 'rb')]: a new handle, or [None] when GDAL cannot open
    the path. *)
Definition VSIFOpenL (path : Data) (mode : string) : M World (option nat) :=
  match path with
  | DStr p =>
      fun w =>
        match Gdal.vsi_files (gdal w) !! p with
        | Some c =>
            let h := fresh (dom (Gdal.handles (gdal w))) in
            (Ok (Some h),
             set_gdal w (Gdal.mkState (Gdal.vsi_files (gdal w))
                           (<[h := Gdal.mkHandle c 0]> (Gdal.handles (gdal w)))))
        | None => (Ok None, w)
        end
  | _ => raise TypeError
  end.

(** [VSIFSeekL(fp, offset, whence)]; a null [fp] is refused. *)
Definition VSIFSeekL (vsi : option nat) (offset whence : Z) : M World unit :=
  let* hv := get_handle vsi in
  let len := Z.of_nat (String.length (Gdal.h_content hv)) in
  let base := if (whence =? 2)%Z then len
              else if (whence =? 1)%Z then Z.of_nat (Gdal.h_pos hv)
              else 0%Z in
  set_handle vsi (Gdal.mkHandle (Gdal.h_content hv) (Z.to_nat (base + offset))).

Definition VSIFTellL (vsi : option nat) : M World Z :=
  let* hv := get_handle vsi in
  ret (Z.of_nat (Gdal.h_pos hv)).

(** [VSIFReadL(size, count, fp)]: the next bytes, at most [size * count];
    the empty string stands for every falsy result. *)
Definition VSIFReadL (size count : Z) (vsi : option nat) : M World string :=
  let* hv := get_handle vsi in
  let buffer := String.substring (Gdal.h_pos hv) (Z.to_nat (size * count))
                  (Gdal.h_content hv) in
  set_handle vsi (Gdal.mkHandle (Gdal.h_content hv)
                    (Gdal.h_pos hv + String.length buffer)) >>
  ret buffer.

Definition VSIFCloseL (vsi : option nat) : M World unit :=
  let* _ := get_handle vsi in
  fun w =>
    match vsi with
    | Some h =>
        (Ok tt, set_gdal w (Gdal.mkState (Gdal.vsi_files (gdal w))
                              (delete h (Gdal.handles (gdal w)))))
    | None => (Raise ValueError, w)
    end.

End gdal.

(** ** stetl/filters/fileextractor.py *)

Definition DEFAULT_BUFFER_SIZE : Z := 1024 * 1024 * 1024.

Module FileExtractor.

(** The configured attributes. *)
Record t : Type := mk {
  file_path : string;
  delete_file : bool;
  buffer_size : Z
}.

(** The methods a derived class overrides. *)
Record Methods : Type := {
  m_output_path : t -> option Packet -> Res string;
  m_extract_file : t -> Packet -> M World unit
}.

Definition safe_filename (name : string) : string := Str.re_sub_unsafe name.

Definition output_path (self : t) (_packet : option Packet) : Res string :=
  Ok (file_path self).

Definition delete_target_file (cls : Methods) (self : t)
    (packet : option Packet) : M World unit :=
  let* p := lift (m_output_path cls self packet) in
  let* b := os.path.isfile p in
  if b then
    let* p' := lift (m_output_path cls self packet) in
    os.remove p'
  else ret tt.

(** The world [delete_target_file] leaves when the output path is [p]. *)
Definition target_deleted (p : string) (w : World) : World :=
  if OS.is_file (os.node_at w p)
  then set_fs w (OS.del (OS.resolve p) (fs w))
  else w.

Definition error_abstract : LogRec :=
  mkLog ERROR "Only classes derived from FileExtractor can be used!" [].

Definition extract_file (self : t) (packet : Packet) : M World unit :=
  Log.error "Only classes derived from FileExtractor can be used!" [].

Definition methods : Methods :=
  {| m_output_path := output_path; m_extract_file := extract_file |}.

Definition invoke (cls : Methods) (self : t) (packet : Packet)
    : M World Packet :=
  if is_None (data packet) then
    Log.info "Input data is empty" [] >>
    ret packet
  else
    delete_target_file cls self (Some packet) >>
    m_extract_file cls self packet >>
    let* p := lift (m_output_path cls self (Some packet)) in
    let packet := set_data packet (DStr p) in
    let* b := os.path.isfile_obj (data packet) in
    if negb b then
      Log.warn "Extracted file {} does not exist" [data packet] >>
      ret (set_data packet DNone)
    else ret packet.

(** The log lines of [invoke]. *)
Definition info_empty : LogRec := mkLog INFO "Input data is empty" [].

Definition warn_missing (p : string) : LogRec :=
  mkLog WARN "Extracted file {} does not exist" [DStr p].

Definition after_chain_invoke (cls : Methods) (self : t)
    (packet : option Packet) : M World Value :=
  if negb (delete_file self) then ret VNone
  else
    delete_target_file cls self packet >>
    ret (VBool true).

(** [data[key]] for the keys the extractors use. *)
Definition subscript (d : Data) (key : string) : Res string :=
  match d with
  | DDict m =>
      match m !! key with
      | Some v => Ok v
      | None => Raise KeyError
      end
  | _ => Raise TypeError
  end.

(** The [while True] loop that copies [content] from position [pos] on, in
    chunks of [size] bytes, into the open file [f]; a negative [size] reads
    all that is left. *)
Fixpoint copy_loop (fuel : nat) (content : string) (pos : nat) (size : Z)
    (f : string) : M World unit :=
  match fuel with
  | 0 => fun w => (Diverge, w)
  | S k =>
      let n := if (size <? 0)%Z then String.length content else Z.to_nat size in
      let buffer := String.substring pos n content in
      if String.eqb buffer EmptyString then ret tt
      else
        os.write f buffer >>
        copy_loop k content (pos + String.length buffer) size f
  end.

End FileExtractor.

Module ZipFileExtractor.

Import FileExtractor.

Definition output_path `{Builtins} (self : t) (packet : option Packet)
    : Res string :=
  match packet_data packet with
  | Ok (DDict d) =>
      if Str.contains "%s" (file_path self) then
        match subscript (DDict d) "name" with
        | Ok name => pure (str_mod (file_path self) (safe_filename name))
        | Raise e => Raise e
        | Diverge => Diverge
        end
      else Ok (file_path self)
  | Ok _ => Ok (file_path self)
  | Raise e => Raise e
  | Diverge => Diverge
  end.

Definition extract_file `{Builtins} `{ZipLib} (self : t) (packet : Packet)
    : M World unit :=
  let* archive := lift (subscript (data packet) "file_path") in
  let* z := ZipFile archive in
  let* out := lift (output_path self (Some packet)) in
  let* f := os.open_wb out in
  let* name := lift (subscript (data packet) "name") in
  let* content := zopen z name in
  copy_loop (S (String.length content)) content 0 (buffer_size self) f.

Definition methods `{Builtins} `{ZipLib} : Methods :=
  {| m_output_path := output_path; m_extract_file := extract_file |}.

End ZipFileExtractor.

Module VsiFileExtractor.

Import FileExtractor.

Definition output_path `{Builtins} (self : t) (packet : option Packet)
    : Res string :=
  match packet_data packet with
  | Ok (DStr s) =>
      if Str.contains "%s" (file_path self)
      then pure (str_mod (file_path self) (safe_filename s))
      else Ok (file_path self)
  | Ok _ => Ok (file_path self)
  | Raise e => Raise e
  | Diverge => Diverge
  end.

(** The local variables that the [except] and [finally] clauses read. *)
Record Locals : Type := mkLocals {
  vsi : option nat;
  vsi_len : Z
}.

Definition set_vsi (h : option nat) : M (St Locals) unit :=
  fun s => (Ok tt, set_self s (mkLocals h (vsi_len (self s)))).
Definition set_vsi_len (n : Z) : M (St Locals) unit :=
  fun s => (Ok tt, set_self s (mkLocals (vsi (self s)) n)).

(** The [while True] loop over [VSIFReadL]. *)
Fixpoint read_loop (fuel : nat) (read_size : Z) (vsi : option nat)
    (f : string) : M World unit :=
  match fuel with
  | 0 => fun w => (Diverge, w)
  | S k =>
      let* buffer := gdal.VSIFReadL 1 read_size vsi in
      if String.eqb buffer EmptyString then ret tt
      else
        os.write f buffer >>
        read_loop k read_size vsi f
  end.

(** The [with open(...) as f] block. At most [vsi_len] reads return bytes,
    so the loop is given [vsi_len + 1] rounds. *)
Definition extract_with `{Builtins} (self : t) (packet : Packet)
    (h : option nat) : M (St Locals) unit :=
  let* out := lift (output_path self (Some packet)) in
  let* f := in_world (os.open_wb out) in
  in_world (gdal.VSIFSeekL h 0 2) >>
  let* len := in_world (gdal.VSIFTellL h) in
  set_vsi_len len >>
  in_world (gdal.VSIFSeekL h 0 0) >>
  let read_size := buffer_size self in
  let read_size := if (len <? read_size)%Z then len else read_size in
  in_world (read_loop (S (Z.to_nat len)) read_size h f).

(** The [try] block. *)
Definition extract_try `{Builtins} (self : t) (packet : Packet)
    (vsi_file_path : Data) : M (St Locals) unit :=
  in_world (Log.info "Extracting {}" [vsi_file_path]) >>
  let* h := in_world (gdal.VSIFOpenL vsi_file_path "rb") in
  set_vsi h >>
  extract_with self packet h.

Definition extract_except (vsi_file_path : Data) (e : exn)
    : M (St Locals) unit :=
  in_world (Log.error "Cannot extract {} err={}" [vsi_file_path]) >>
  raise e.

Definition extract_finally (vsi_file_path : Data) : M (St Locals) unit :=
  let* l := get_self in
  match vsi l with
  | Some _ =>
      in_world (Log.info "Extracted {} ok len={} bytes"
                  [vsi_file_path; DInt (vsi_len l)]) >>
      in_world (gdal.VSIFCloseL (vsi l))
  | None => ret tt
  end.

Definition extract_file `{Builtins} (self : t) (packet : Packet)
    : M World unit :=
  fun w =>
    let vsi_file_path := data packet in
    let frame := mkSt (mkLocals None 0) w in
    let (r, s) :=
      try_finally
        (try_except (extract_try self packet vsi_file_path)
                    (extract_except vsi_file_path))
        (extract_finally vsi_file_path) frame in
    (r, world s).

Definition methods `{Builtins} : Methods :=
  {| m_output_path := output_path; m_extract_file := extract_file |}.

(** The handles open in [w] are those of [m0] and the handle [h]. *)
Definition opened (h : nat) (m0 : gmap nat Gdal.Handle) (w : World) : Prop :=
  exists hv, Gdal.handles (gdal w) = <[h := hv]> m0.

End VsiFileExtractor.

(** ** ConfigParser (Python 2), as far as the driver uses it *)

Module ConfigParser.

(** The parsed store: the [DEFAULT] section and the named sections. *)
Record t : Type := mk {
  defaults : gmap string string;
  sections : gmap string (gmap string string)
}.

(** [ConfigParser()]. *)
Definition new : t := mk ∅ ∅.

(** The parser proper and value interpolation are taken as given: [parse]
    reads the text of a file into the store and may raise part-way. *)
Class Lib : Type := {
  parse : string -> string -> M t unit;
  interpolate : t -> string -> string -> string -> exn + string
}.

(** [get(section, option)]. *)
Definition get `{Lib} (self : t) (section option : string) : Res string :=
  match
    match sections self !! section with
    | Some d => Ok d
    | None =>
        if String.eqb section "DEFAULT" then Ok ∅ else Raise NoSectionError
    end
  with
  | Ok sectiondict =>
      let option := Str.lower option in
      match sectiondict !! option with
      | Some value => pure (interpolate self section option value)
      | None =>
          match defaults self !! option with
          | Some value => pure (interpolate self section option value)
          | None => Raise NoOptionError
          end
      end
  | Raise e => Raise e
  | Diverge => Diverge
  end.

End ConfigParser.

(** ** The rest of the [setl] package *)

(** [setl.chain.Chain] and the timers of [setl.util.Util] are not part of
    the driver: their behaviour is left open. *)
Class Setl : Type := {
  Chain : Type;
  Chain_init : string -> ConfigParser.t -> M World Chain;
  Chain_assemble : Chain -> M World Chain;
  Chain_run : Chain -> M World unit;
  Timer : Type;
  startTimer : string -> M World Timer;
  endTimer : Timer -> string -> M World unit
}.

(** ** src/setl/etl.py *)

Module ETL.

Record Options : Type := { config_file : string }.

Record t : Type := mk { configdict : ConfigParser.t }.

(** Runs code on [self.configdict] inside a method. *)
Definition on_configdict {A} (m : M ConfigParser.t A) : M (St t) A :=
  fun s =>
    let (r, c) := m (configdict (self s)) in (r, set_self s (mk c)).

(** [self.configdict.readfp(config_buf, config_file)]. *)
Definition readfp `{ConfigParser.Lib} (config_str filename : string)
    : M (St t) unit :=
  on_configdict (ConfigParser.parse config_str filename).

(** [self.configdict.read(config_file)]: a file that cannot be opened is
    passed over, a file that can is parsed. *)
Definition read `{ConfigParser.Lib} (filename : string) : M (St t) unit :=
  fun s =>
    match os.read_file filename (world s) with
    | (Ok text, _) => on_configdict (ConfigParser.parse text filename) s
    | (_, _) => (Ok tt, s)
    end.

(** [if args:] for [None] or a list. *)
Definition truthy_args (args : option (list string)) : bool :=
  match args with
  | Some (_ :: _) => true
  | _ => false
  end.

(** The body of the [try]. *)
Definition init_try `{Builtins} `{ConfigParser.Lib} (config_file : string)
    (args : option (list string)) : M (St t) unit :=
  if truthy_args args then
    let args_tuple := default [] args in
    let* config_str := in_world (os.read_file config_file) in
    let* config_str := lift (pure (str_format config_str args_tuple)) in
    let config_buf := config_str in
    readfp config_buf config_file
  else
    read config_file.

(** [ETL.__init__(options, args)]: gives the new object. *)
Definition init `{Builtins} `{ConfigParser.Lib} (options : Options)
    (args : option (list string)) : M World t :=
  let config_file := config_file options in
  Log.info "config_file = %s" [DStr config_file] >>
  fun w =>
    let (r, s) :=
      try_except_all
        (init_try config_file args)
        (in_world (Log.warning "Cannot read config file: %s" [DStr config_file]))
        (mkSt (mk ConfigParser.new) w) in
    (match r with
     | Ok _ => Ok (self s)
     | Raise e => Raise e
     | Diverge => Diverge
     end, world s).

(** The log lines of [__init__]. *)
Definition info_config_file (config_file : string) : LogRec :=
  mkLog INFO "config_file = %s" [DStr config_file].

Definition warning_cannot_read (config_file : string) : LogRec :=
  mkLog WARN "Cannot read config file: %s" [DStr config_file].

(** The for loop of [run]. *)
Fixpoint run_chains `{Setl} (configdict : ConfigParser.t)
    (chains_str_arr : list string) : M World unit :=
  match chains_str_arr with
  | [] => ret tt
  | chain_str :: rest =>
      let* chain := Chain_init (Str.strip chain_str) configdict in
      let* chain := Chain_assemble chain in
      Chain_run chain >>
      run_chains configdict rest
  end.

Definition run `{ConfigParser.Lib} `{Setl} (self : t) : M World unit :=
  Log.info "START" [] >>
  let* t1 := startTimer "total ETL" in
  let* chains_str := lift (ConfigParser.get (configdict self) "etl" "chains") in
  if String.eqb chains_str EmptyString then
    raise ValueError
  else
    let chains_str_arr := Str.split "," chains_str in
    run_chains (configdict self) chains_str_arr >>
    endTimer t1 "total ETL" >>
    Log.info "ALL DONE" [].

End ETL.

(** ** Stand-ins for the libraries, to run the model on examples *)

Module Sample.

Definition res_map {A B} (f : A -> B) (r : exn + A) : exn + B :=
  match r with
  | inr a => inr (f a)
  | inl e => inl e
  end.

(** [fmt % arg] for the conversions [%s] and [%%]. *)
Fixpoint mod_go (fmt : string) (arg : option string) : exn + string :=
  match fmt with
  | EmptyString =>
      match arg with
      | None => inr EmptyString
      | Some _ => inl TypeError
      end
  | String "%" (String "s" rest) =>
      match arg with
      | Some a => res_map (String.append a) (mod_go rest None)
      | None => inl TypeError
      end
  | String "%" (String "%" rest) => res_map (String "%") (mod_go rest arg)
  | String "%" _ => inl ValueError
  | String c rest => res_map (String c) (mod_go rest arg)
  end.

(** [fmt.format( *args )] for the replacement field [{}]. *)
Fixpoint format_go (fmt : string) (args : list string) : exn + string :=
  match fmt with
  | EmptyString => inr EmptyString
  | String "{" (String "}" rest) =>
      match args with
      | a :: args' => res_map (String.append a) (format_go rest args')
      | [] => inl IndexError
      end
  | String c rest => res_map (String c) (format_go rest args)
  end.

#[export] Instance builtins : Builtins :=
  {| str_mod := fun fmt arg => mod_go fmt (Some arg);
     str_format := format_go |}.

(** A toy archive format: a file that starts with [PK:] is an archive with
    the single member [member.txt], whose bytes are the rest of the file. *)
Definition member_name : string := "member.txt".

Definition zip_open (file_path : string) : M World string :=
  let* text := os.read_file file_path in
  if String.prefix "PK:" text
  then ret (String.substring 3 (String.length text - 3) text)
  else raise OSError.

Definition zip_extractall (z : string) (output_path : string) : M World unit :=
  let* f := os.open_wb (os.path.join output_path member_name) in
  os.write f z.

Definition zip_member (z : string) (name : string) : M World string :=
  if String.eqb name member_name then ret z else raise KeyError.

#[export] Instance ziplib : ZipLib :=
  {| Archive := string;
     ZipFile := zip_open;
     extractall := zip_extractall;
     zopen := zip_member |}.

(** A small reader of [.ini] text: [[section]] headers and [key = value]
    lines; any other line that is not blank is refused. *)
Definition newline : ascii := "010"%char.

Fixpoint split_once (c : ascii) (s : string) : option (string * string) :=
  match s with
  | EmptyString => None
  | String a s' =>
      if Ascii.eqb a c then Some (EmptyString, s')
      else match split_once c s' with
           | Some (l, r) => Some (String a l, r)
           | None => None
           end
  end.

Definition add_section (name : string) (cp : ConfigParser.t) : ConfigParser.t :=
  match ConfigParser.sections cp !! name with
  | Some _ => cp
  | None => ConfigParser.mk (ConfigParser.defaults cp)
              (<[name := ∅]> (ConfigParser.sections cp))
  end.

Definition add_option (section key value : string) (cp : ConfigParser.t)
    : ConfigParser.t :=
  ConfigParser.mk (ConfigParser.defaults cp)
    (<[section := <[key := value]>
                    (default ∅ (ConfigParser.sections cp !! section))]>
       (ConfigParser.sections cp)).

Fixpoint parse_lines (lines : list string) (cur : option string)
    : M ConfigParser.t unit :=
  match lines with
  | [] => ret tt
  | line :: rest =>
      let line := Str.strip line in
      if String.eqb line EmptyString then parse_lines rest cur
      else if Str.starts_with_char "[" line && Str.ends_with_char "]" line then
        let name := String.substring 1 (String.length line - 2) line in
        modify (add_section name) >>
        parse_lines rest (Some name)
      else
        match split_once "=" line, cur with
        | Some (k, v), Some section =>
            modify (add_option section (Str.lower (Str.strip k)) (Str.strip v)) >>
            parse_lines rest cur
        | _, _ => raise ParsingError
        end
  end.

#[export] Instance configparser : ConfigParser.Lib :=
  {| ConfigParser.parse := fun text _ => parse_lines (Str.split newline text) None;
     ConfigParser.interpolate := fun _ _ _ value => inr value |}.

(** Chains and timers that only write down that they were called. *)
#[export] Instance setl : Setl :=
  {| Chain := string;
     Chain_init := fun chain_str _ =>
       Log.info "Chain.__init__" [DStr chain_str] >> ret chain_str;
     Chain_assemble := fun chain =>
       Log.info "Chain.assemble" [DStr chain] >> ret chain;
     Chain_run := fun chain => Log.info "Chain.run" [DStr chain];
     Timer := string;
     startTimer := fun name => Log.info "startTimer" [DStr name] >> ret name;
     endTimer := fun _ name => Log.info "endTimer" [DStr name] |}.

Definition no_gdal : Gdal.State := Gdal.mkState ∅ ∅.

Definition world_of (root : OS.node) : World := mkWorld root [] no_gdal.

(** [t/] holds a directory [sub/], with [subsub/] and a file inside, and a
    file [g]; [flat/] holds [a], the directory [d/] with one file, and
    [z]. *)
Definition tree : OS.node :=
  OS.Dir
    [("t", OS.Dir [("sub", OS.Dir [("subsub", OS.Dir []);
                                   ("f", OS.File "x")]);
                   ("g", OS.File "y")]);
     ("flat", OS.Dir [("a", OS.File "1");
                      ("d", OS.Dir [("inner", OS.File "2")]);
                      ("z", OS.File "3")]);
     ("files", OS.Dir [("p", OS.File "4"); ("q", OS.File "5")]);
     ("note.txt", OS.File "6");
     ("in.zip", OS.File "PK:hello")].

Definition packet_of (d : Data) : Packet := mkPacket d "any" ∅.

(** GDAL can open one virtual path, holding six bytes. *)
Definition vsi_path : string := "/vsizip/{in.zip}/x.xml".

Definition vsi_world : World :=
  mkWorld tree [] (Gdal.mkState (<[vsi_path := "<xml/>"]> ∅) ∅).

(** A store with a section [etl] that has no option [chains], and stores
    where [chains] is empty and where it names two chains. *)
Definition config_of (options : gmap string string) : ConfigParser.t :=
  ConfigParser.mk ∅ (<["etl" := options]> ∅).

Definition no_chains : ConfigParser.t := config_of ∅.
Definition empty_chains : ConfigParser.t :=
  config_of (<["chains" := EmptyString]> ∅).
Definition two_chains : ConfigParser.t :=
  config_of (<["chains" := "in|out , in2|out2"]> ∅).

(** The packet that asks for the member of [in.zip]. *)
Definition member_packet : Packet :=
  packet_of (DDict (<["file_path" := "in.zip"]> (<["name" := "member.txt"]> ∅))).

(** Chains as above, but one with an empty name cannot be built. *)
Definition strict_setl : Setl :=
  {| Chain := string;
     Chain_init := fun chain_str _ =>
       if String.eqb chain_str EmptyString then raise ValueError
       else Log.info "Chain.__init__" [DStr chain_str] >> ret chain_str;
     Chain_assemble := fun chain =>
       Log.info "Chain.assemble" [DStr chain] >> ret chain;
     Chain_run := fun chain => Log.info "Chain.run" [DStr chain];
     Timer := string;
     startTimer := fun name => Log.info "startTimer" [DStr name] >> ret name;
     endTimer := fun _ name => Log.info "endTimer" [DStr name] |}.

(** A store where the second of three entries of [chains] is empty. *)
Definition gap_chains : ConfigParser.t :=
  config_of (<["chains" := "a,,b"]> ∅).

End Sample.

(** ** Measures and relations on paths and trees, for the properties below *)

Module Tree.

Import OS.

Fixpoint is_prefix (p q : list string) : bool :=
  match p, q with
  | [], _ => true
  | c :: p', c' :: q' => String.eqb c c' && is_prefix p' q'
  | _ :: _, [] => false
  end.

(** Neither path leads through the other. *)
Definition apart (p q : list string) : bool :=
  negb (is_prefix p q) && negb (is_prefix q p).

(** The number of files and directories in a tree, the root included. *)
Fixpoint size (n : node) : nat :=
  match n with
  | File _ => 1
  | Dir es =>
      S ((fix go (es : list (string * node)) : nat :=
            match es with
            | [] => 0
            | (_, ch) :: rest => size ch + go rest
            end) es)
  end.

(** The world in which the file at [path] holds [content]. *)
Definition written (path content : string) (w : World) : World :=
  set_fs w (put (resolve path) (File content) (fs w)).

(** The world after [os.remove(path)] guarded by [os.path.isfile(path)]. *)
Definition unlinked (path : string) (w : World) : World :=
  if is_file (os.node_at w path)
  then set_fs w (del (resolve path) (fs w))
  else w.

(** [s[n:]]. *)
Definition drop (n : nat) (s : string) : string :=
  String.substring n (String.length s - n) s.

(** The world in which the open handle [h] on [content] stands at [pos]. *)
Definition read_to (h : nat) (content : string) (pos : nat) (w : World)
    : World :=
  set_gdal w (Gdal.mkState (Gdal.vsi_files (gdal w))
                (<[h := Gdal.mkHandle content pos]> (Gdal.handles (gdal w)))).

(** The world in which the handle [h] has been closed. *)
Definition closed (h : nat) (w : World) : World :=
  set_gdal w (Gdal.mkState (Gdal.vsi_files (gdal w))
                (delete h (Gdal.handles (gdal w)))).

(** The log lines of [VsiFileExtractor.extract_file] when all goes well. *)
Definition info_extracting (p : string) : LogRec :=
  mkLog INFO "Extracting {}" [DStr p].

Definition info_extracted (p : string) (len : nat) : LogRec :=
  mkLog INFO "Extracted {} ok len={} bytes" [DStr p; DInt (Z.of_nat len)].

End Tree.

(** * Properties *)

(** ** Path strings *)

Section PathFacts.

Local Lemma append_cons a s1 s2 :
  String.append (String a s1) s2 = String a (String.append s1 s2).
Proof. reflexivity. Qed.

Local Lemma append_nil s : String.append EmptyString s = s.
Proof. reflexivity. Qed.

Lemma split_not_nil c s : Str.split c s <> [].
Proof.
  destruct s as [|a s]; cbn; [discriminate|].
  destruct (Ascii.eqb a c); [discriminate|].
  destruct (Str.split c s); discriminate.
Qed.

Lemma split_app_sep c a b :
  Str.split c (String.append a (String c b)) = Str.split c a ++ Str.split c b.
Proof.
  induction a as [|x a IH].
  - rewrite append_nil. cbn. now rewrite Ascii.eqb_refl.
  - rewrite append_cons. cbn. destruct (Ascii.eqb x c); [now rewrite IH|].
    rewrite IH. destruct (Str.split c a) as [|h t] eqn:E.
    + now apply split_not_nil in E.
    + reflexivity.
Qed.

Lemma split_no_sep c s :
  forallb (fun a => negb (Ascii.eqb a c)) (Str.chars s) = true ->
  Str.split c s = [s].
Proof.
  induction s as [|x s IH]; cbn; [reflexivity|].
  intros H. apply andb_prop in H as [Hx Hs].
  apply negb_true_iff in Hx. rewrite Hx, (IH Hs). reflexivity.
Qed.

Lemma ends_with_char_inv c s :
  Str.ends_with_char c s = true ->
  exists s', s = String.append s' (String c EmptyString).
Proof.
  induction s as [|x s IH]; [discriminate|].
  destruct s as [|y s].
  - cbn. intros H. apply Ascii.eqb_eq in H. subst. now exists EmptyString.
  - intros H. change (Str.ends_with_char c (String y s) = true) in H.
    destruct (IH H) as [s' Hs']. exists (String x s').
    rewrite append_cons. now rewrite <- Hs'.
Qed.

Lemma valid_name_no_slash c :
  OS.valid_name c = true ->
  forallb (fun a => negb (Ascii.eqb a Str.slash)) (Str.chars c) = true.
Proof. unfold OS.valid_name. intros H. now apply andb_prop in H as [_ H]. Qed.

Lemma valid_name_not_skipped c :
  OS.valid_name c = true -> OS.skipped c = false.
Proof.
  unfold OS.valid_name, OS.skipped. intros H.
  apply andb_prop in H as [H _]. apply andb_prop in H as [H _].
  apply andb_prop in H as [H1 H2].
  apply negb_true_iff in H1, H2. now rewrite H1, H2.
Qed.

Lemma valid_name_not_absolute c :
  OS.valid_name c = true -> Str.starts_with_char Str.slash c = false.
Proof.
  intros H. pose proof (valid_name_no_slash _ H) as Hs.
  destruct c as [|a c]; [reflexivity|]. cbn in *.
  apply andb_prop in Hs as [Ha _]. now apply negb_true_iff in Ha.
Qed.

Lemma resolve_name c : OS.valid_name c = true -> OS.resolve c = [c].
Proof.
  intros H. unfold OS.resolve.
  rewrite (split_no_sep _ _ (valid_name_no_slash _ H)). cbn.
  now rewrite (valid_name_not_skipped _ H).
Qed.

(** Joining a directory path and a listed name goes one component down. *)
Lemma resolve_join d c :
  OS.valid_name c = true ->
  OS.resolve (OS.join d c) = OS.resolve d ++ [c].
Proof.
  intros H. unfold OS.join. rewrite (valid_name_not_absolute _ H).
  destruct (String.eqb d EmptyString) eqn:Ed.
  - apply String.eqb_eq in Ed. subst. cbn [orb]. rewrite append_nil.
    now rewrite (resolve_name _ H).
  - cbn [orb]. destruct (Str.ends_with_char Str.slash d) eqn:Es.
    + destruct (ends_with_char_inv _ _ Es) as [d' ->].
      unfold OS.resolve.
      assert (String.append (String.append d' (String Str.slash EmptyString)) c
              = String.append d' (String Str.slash c)) as ->.
      { clear. induction d' as [|x d' IH]; [reflexivity|].
        rewrite !append_cons. now rewrite IH. }
      rewrite !split_app_sep, !List.filter_app. cbn [List.filter OS.skipped String.eqb orb negb]. rewrite app_nil_r. f_equal.
      fold (OS.resolve c). now rewrite (resolve_name _ H).
    + unfold OS.resolve. rewrite split_app_sep, List.filter_app. f_equal.
      fold (OS.resolve c). now apply resolve_name.
Qed.

End PathFacts.

(** ** Looking up and rewriting nodes of the tree *)

Section TreeFacts.

Import OS.

Lemma lookup_app p q n :
  lookup (p ++ q) n =
  match lookup p n with Some m => lookup q m | None => None end.
Proof.
  revert n. induction p as [|c p IH]; intros n; cbn; [reflexivity|].
  destruct n as [|es]; [reflexivity|].
  destruct (get_entry c es); [apply IH|reflexivity].
Qed.

Lemma update_app p q g o : update (p ++ q) g o = update p (update q g) o.
Proof.
  revert o. induction p as [|c p IH]; intros o; cbn; [reflexivity|].
  destruct o as [[|es]|]; try reflexivity.
  do 2 f_equal. clear -IH. induction es as [|[c' ch] es IHes]; cbn.
  - now rewrite IH.
  - destruct (String.eqb c' c); [now rewrite IH|now rewrite IHes].
Qed.

Lemma update_entries_at c h ch es :
  get_entry c es = Some ch ->
  update_entries c h es = update_entries c (fun _ => h (Some ch)) es.
Proof.
  induction es as [|[c' x] es IH]; cbn; [discriminate|].
  destruct (String.eqb c' c); [now intros [= ->]|].
  intros H. now rewrite (IH H).
Qed.

Lemma update_entries_twice c h x ch es :
  get_entry c es = Some ch ->
  update_entries c h (update_entries c (fun _ => Some x) es) =
  update_entries c (fun _ => h (Some x)) es.
Proof.
  induction es as [|[c' y] es IH]; cbn; [discriminate|].
  destruct (String.eqb c' c) eqn:E; cbn; rewrite E; [reflexivity|].
  intros H. now rewrite (IH H).
Qed.

Lemma get_entry_update c x ch es :
  get_entry c es = Some ch ->
  get_entry c (update_entries c (fun _ => Some x) es) = Some x.
Proof.
  induction es as [|[c' y] es IH]; cbn; [discriminate|].
  destruct (String.eqb c' c) eqn:E; cbn; rewrite E; [reflexivity|].
  exact IH.
Qed.

Lemma update_entries_same c ch es :
  get_entry c es = Some ch ->
  update_entries c (fun _ => Some ch) es = es.
Proof.
  induction es as [|[c' y] es IH]; cbn; [discriminate|].
  destruct (String.eqb c' c) eqn:E; [now intros [= ->]|].
  intros H. now rewrite (IH H).
Qed.

(** Only the node found at [p] matters to the rewriting function. *)
Lemma update_at p g a n :
  lookup p n = Some a ->
  update p g (Some n) = update p (fun _ => g (Some a)) (Some n).
Proof.
  revert n. induction p as [|c p IH]; intros n; cbn.
  - now intros [= ->].
  - destruct n as [|es]; [discriminate|].
    destruct (get_entry c es) as [ch|] eqn:E; [|discriminate].
    intros H. do 2 f_equal.
    rewrite (update_entries_at _ _ _ _ E).
    rewrite (update_entries_at _ (update p (fun _ => g (Some a))) _ _ E).
    now rewrite (IH _ H).
Qed.

Lemma update_some p x a n :
  lookup p n = Some a ->
  exists n', update p (fun _ => Some x) (Some n) = Some n' /\
             lookup p n' = Some x.
Proof.
  revert n. induction p as [|c p IH]; intros n; cbn.
  - intros _. now exists x.
  - destruct n as [|es]; [discriminate|].
    destruct (get_entry c es) as [ch|] eqn:E; [|discriminate].
    intros H. destruct (IH _ H) as (ch' & Hu & Hl).
    eexists; split; [reflexivity|]. cbn.
    rewrite (update_entries_at _ _ _ _ E), Hu.
    now rewrite (get_entry_update _ _ _ _ E).
Qed.

Lemma update_twice p g x a n :
  lookup p n = Some a ->
  forall n', update p (fun _ => Some x) (Some n) = Some n' ->
  update p g (Some n') = update p (fun _ => g (Some x)) (Some n).
Proof.
  revert n. induction p as [|c p IH]; intros n; cbn.
  - now intros _ n' [= <-].
  - destruct n as [|es]; [discriminate|].
    destruct (get_entry c es) as [ch|] eqn:E; [|discriminate].
    intros H n' [= <-]. do 2 f_equal.
    destruct (update_some p x a ch H) as (ch' & Hu & Hl).
    rewrite (update_entries_at _ (update p (fun _ => Some x)) _ _ E), Hu.
    rewrite (update_entries_twice _ _ _ _ _ E).
    rewrite (update_entries_at _ (update p (fun _ => g (Some x))) _ _ E).
    now rewrite (IH _ H _ Hu).
Qed.

Lemma update_same p a n :
  lookup p n = Some a -> update p (fun _ => Some a) (Some n) = Some n.
Proof.
  revert n. induction p as [|c p IH]; intros n; cbn.
  - now intros [= ->].
  - destruct n as [|es]; [discriminate|].
    destruct (get_entry c es) as [ch|] eqn:E; [|discriminate].
    intros H. do 2 f_equal.
    rewrite (update_entries_at _ _ _ _ E), (IH _ H).
    now apply update_entries_same.
Qed.

Lemma update_cons_some c p g n :
  exists n', update (c :: p) g (Some n) = Some n'.
Proof. destruct n; cbn; eauto. Qed.

Lemma lookup_put p x a root :
  lookup p root = Some a -> lookup p (put p x root) = Some x.
Proof.
  intros H. unfold put, update_root.
  destruct (update_some p x a root H) as (n' & -> & Hl). exact Hl.
Qed.

Lemma put_same p a root : lookup p root = Some a -> put p a root = root.
Proof. intros H. unfold put, update_root. now rewrite (update_same _ _ _ H). Qed.

Lemma put_put p x y a root :
  lookup p root = Some a -> put p y (put p x root) = put p y root.
Proof.
  intros H. unfold put, update_root.
  destruct (update_some p x a root H) as (n' & Hu & Hl). rewrite Hu.
  rewrite (update_twice _ _ _ _ _ H _ Hu).
  now destruct (update_some p y a root H) as (n'' & -> & _).
Qed.

Lemma del_put p x a root :
  lookup p root = Some a -> del p (put p x root) = del p root \/ p = [].
Proof.
  intros H. destruct p as [|c p]; [now right|left].
  unfold del, put, update_root.
  destruct (update_some _ x a root H) as (n' & Hu & Hl). rewrite Hu.
  rewrite (update_twice _ _ _ _ _ H _ Hu).
  now destruct (update_cons_some c p (fun _ => None) root) as (n'' & ->).
Qed.

Lemma lookup_child p c ch rest root :
  lookup p root = Some (Dir ((c, ch) :: rest)) ->
  lookup (p ++ [c]) root = Some ch.
Proof.
  intros H. rewrite lookup_app, H. cbn. now rewrite String.eqb_refl.
Qed.

Lemma put_child p c ch x rest root :
  lookup p root = Some (Dir ((c, ch) :: rest)) ->
  put (p ++ [c]) x root = put p (Dir ((c, x) :: rest)) root.
Proof.
  intros H. unfold put, update_root. rewrite update_app.
  rewrite (update_at _ _ _ _ H). cbn. now rewrite String.eqb_refl.
Qed.

Lemma del_child p c ch rest root :
  lookup p root = Some (Dir ((c, ch) :: rest)) ->
  del (p ++ [c]) root = put p (Dir rest) root.
Proof.
  intros H. unfold del, put, update_root. rewrite update_app.
  rewrite (update_at _ _ _ _ H). cbn. now rewrite String.eqb_refl.
Qed.

End TreeFacts.

(** ** Running code in the monad *)

Section Hoare.

Lemma holds_bind {S A B} (m : M S A) (k : A -> M S B) s Q :
  holds m s (fun r s' =>
    match r with
    | Ok a => holds (k a) s' Q
    | Raise e => Q (Raise e) s'
    | Diverge => Q Diverge s'
    end) ->
  holds (bind m k) s Q.
Proof. unfold holds, bind. now destruct (m s) as [[a|e|] s']. Qed.

Lemma holds_in_world {T A} (m : M World A) (s : St T) Q :
  holds m (world s) (fun r w => Q r (set_world s w)) ->
  holds (in_world m) s Q.
Proof. unfold holds, in_world. now destruct (m (world s)). Qed.

Lemma holds_weaken {S A} (m : M S A) s (Q Q' : Res A -> S -> Prop) :
  holds m s Q -> (forall r s', Q r s' -> Q' r s') -> holds m s Q'.
Proof. unfold holds. auto. Qed.

Lemma in_world_run {T A} (m : M World A) (s : St T) r w :
  m (world s) = (r, w) -> in_world m s = (r, set_world s w).
Proof. intros H. unfold in_world. now rewrite H. Qed.

Lemma set_fs_same w : set_fs w (fs w) = w.
Proof. now destruct w. Qed.

Lemma set_fs_set_fs w r r' : set_fs (set_fs w r) r' = set_fs w r'.
Proof. reflexivity. Qed.

Lemma substring_length_le s : forall n m,
  String.length (String.substring n m s) <= String.length s - n.
Proof.
  induction s as [|a s IH]; intros [|n] [|m]; cbn; try lia.
  - specialize (IH 0 m). lia.
  - apply IH.
  - apply IH.
Qed.

Lemma open_wb_frame path w :
  gdal (snd (os.open_wb path w)) = gdal w /\
  fst (os.open_wb path w) <> Diverge.
Proof.
  unfold os.open_wb. destruct (OS.resolve path); [easy|].
  destruct (os.node_at w path) as [[|]|]; try easy;
    destruct (OS.is_dir _); easy.
Qed.

Lemma write_frame f buffer w :
  gdal (snd (os.write f buffer w)) = gdal w /\
  fst (os.write f buffer w) <> Diverge.
Proof. unfold os.write. now destruct (os.node_at w f) as [[|]|]. Qed.

End Hoare.

(** ** [safe_filename] *)

Section SafeFilename.

Import Str.

Lemma sanitize_allowed a : allowed (sanitize a) = true.
Proof.
  unfold sanitize, allowed. destruct (Str.keeps a) eqn:E.
  - unfold Str.keeps in E. now rewrite E.
  - rewrite Ascii.eqb_refl. apply orb_true_r.
Qed.

Lemma sanitize_idem a : sanitize (sanitize a) = sanitize a.
Proof.
  unfold sanitize. destruct (Str.keeps a) eqn:E; [now rewrite E|reflexivity].
Qed.

Lemma re_sub_unsafe_length s :
  String.length (Str.re_sub_unsafe s) = String.length s.
Proof. induction s as [|a s IH]; cbn; [reflexivity|now rewrite IH]. Qed.

Lemma re_sub_unsafe_chars s :
  Str.chars (Str.re_sub_unsafe s) = map sanitize (Str.chars s).
Proof. induction s as [|a s IH]; cbn; [reflexivity|now rewrite IH]. Qed.

Lemma re_sub_unsafe_idem s :
  Str.re_sub_unsafe (Str.re_sub_unsafe s) = Str.re_sub_unsafe s.
Proof.
  induction s as [|a s IH]; cbn; [reflexivity|].
  rewrite IH. f_equal. apply sanitize_idem.
Qed.

(** C9. [safe_filename], in both classes, keeps the length of its
    argument, replaces exactly the characters outside [a-zA-Z0-9.] by an
    underscore so that only letters, digits, dots and underscores remain,
    and applying it twice is the same as applying it once. *)
Theorem safe_filename_closed_idempotent (s : string) :
  FileExtractor.safe_filename s = ArchiveExpander.safe_filename s /\
  String.length (ArchiveExpander.safe_filename s) = String.length s /\
  Str.chars (ArchiveExpander.safe_filename s) =
    map (fun a => if Str.keeps a then a else "_"%char) (Str.chars s) /\
  Forall (fun a => allowed a = true)
         (Str.chars (ArchiveExpander.safe_filename s)) /\
  ArchiveExpander.safe_filename (ArchiveExpander.safe_filename s) =
    ArchiveExpander.safe_filename s.
Proof.
  unfold FileExtractor.safe_filename, ArchiveExpander.safe_filename.
  split; [reflexivity|]. split; [apply re_sub_unsafe_length|].
  split; [apply re_sub_unsafe_chars|]. split; [|apply re_sub_unsafe_idem].
  rewrite re_sub_unsafe_chars. apply List.Forall_forall. intros a Ha.
  apply in_map_iff in Ha as (b & <- & _). apply sanitize_allowed.
Qed.

End SafeFilename.

(** ** [wipe_dir] against the tree *)

Section WipeDir.

Import OS ArchiveExpander.

Lemma wipe_entries_nil : wipe_entries [] = (true, []).
Proof. reflexivity. Qed.

Lemma wipe_entries_file c s rest :
  wipe_entries ((c, File s) :: rest) = wipe_entries rest.
Proof. reflexivity. Qed.

Lemma wipe_entries_dir c sub rest :
  wipe_entries ((c, Dir sub) :: rest) =
  match wipe_tree (Dir sub) with
  | (true, Dir []) => (true, rest)
  | (_, ch') => (false, (c, ch') :: rest)
  end.
Proof. reflexivity. Qed.

Lemma wipe_tree_Dir es :
  wipe_tree (Dir es) = (fst (wipe_entries es), Dir (snd (wipe_entries es))).
Proof.
  change (wipe_tree (Dir es))
    with (let (ok, es') := wipe_entries es in (ok, Dir es')).
  now destruct (wipe_entries es).
Qed.

Lemma wf_node_cons c ch rest :
  wf_node (Dir ((c, ch) :: rest)) = true ->
  valid_name c = true /\ wf_node ch = true /\ wf_node (Dir rest) = true.
Proof.
  intros H.
  change (valid_name c && negb (has_entry c rest) && wf_node ch
          && wf_node (Dir rest) = true) in H.
  apply andb_prop in H as [H H3]. apply andb_prop in H as [H H2].
  apply andb_prop in H as [H1 _]. auto.
Qed.

Lemma wf_node_fresh c ch rest :
  wf_node (Dir ((c, ch) :: rest)) = true -> has_entry c rest = false.
Proof.
  intros H.
  change (valid_name c && negb (has_entry c rest) && wf_node ch
          && wf_node (Dir rest) = true) in H.
  apply andb_prop in H as [H _]. apply andb_prop in H as [H _].
  apply andb_prop in H as [_ H]. now apply negb_true_iff in H.
Qed.

Lemma height_cons c ch rest :
  height (Dir ((c, ch) :: rest)) =
  S (Nat.max (height ch) (pred (height (Dir rest)))).
Proof. reflexivity. Qed.

Lemma node_at_eq w path :
  path <> EmptyString -> os.node_at w path = lookup (resolve path) (fs w).
Proof. now destruct path. Qed.

Lemma node_at_some w path t :
  os.node_at w path = Some t ->
  path <> EmptyString /\ lookup (resolve path) (fs w) = Some t.
Proof. now destruct path. Qed.

Lemma join_not_empty d c : valid_name c = true -> join d c <> EmptyString.
Proof.
  intros H E. pose proof (resolve_join d c H) as Hr. rewrite E in Hr.
  now destruct (resolve d).
Qed.

Lemma node_at_join w d c :
  valid_name c = true ->
  os.node_at w (os.path.join d c) = lookup (resolve d ++ [c]) (fs w).
Proof.
  intros H. unfold os.path.join.
  rewrite (node_at_eq _ _ (join_not_empty d c H)). now rewrite resolve_join.
Qed.

Lemma wipe_loop_tree (rec : string -> M World unit) k dir_path :
  (forall t path w, wf_node t = true -> os.node_at w path = Some t ->
     height t < k ->
     rec path w = (outcome (fst (wipe_tree t)),
                   set_fs w (put (resolve path) (snd (wipe_tree t)) (fs w)))) ->
  forall es w, wf_node (Dir es) = true ->
    os.node_at w dir_path = Some (Dir es) ->
    height (Dir es) < S k ->
    wipe_loop rec dir_path (map fst es) w =
    (outcome (fst (wipe_entries es)),
     set_fs w (put (resolve dir_path) (Dir (snd (wipe_entries es))) (fs w))).
Proof.
  intros Hrec. induction es as [|[c ch] rest IH]; intros w Hwf Hn Hh.
  - cbn. apply node_at_some in Hn as [_ Hn].
    now rewrite (put_same _ _ _ Hn), set_fs_same.
  - apply wf_node_cons in Hwf as (Hc & Hch & Hrest).
    rewrite height_cons in Hh.
    destruct (node_at_some _ _ _ Hn) as [Hne Hn'].
    assert (os.node_at w (os.path.join dir_path c) = Some ch) as Hat.
    { rewrite (node_at_join _ _ _ Hc). eapply lookup_child, Hn'. }
    cbn [map fst wipe_loop]. unfold bind at 1. unfold os.path.isdir at 1.
    rewrite Hat. destruct ch as [s|sub]; cbn [is_dir].
    + (* a regular file: removed, the loop goes on *)
      unfold bind at 1. unfold os.remove at 1. rewrite Hat.
      unfold os.path.join at 1. rewrite (resolve_join _ _ Hc).
      rewrite (del_child _ _ _ _ _ Hn').
      rewrite IH; cycle 1.
      * exact Hrest.
      * rewrite (node_at_eq _ _ Hne). cbn [fs set_fs].
        eapply lookup_put, Hn'.
      * lia.
      * rewrite wipe_entries_file. cbn [fs set_fs]. rewrite set_fs_set_fs.
        now rewrite (put_put _ _ _ _ _ Hn').
    + (* a directory: wiped, removed, and the loop is left *)
      unfold bind at 1. rewrite (Hrec _ _ _ Hch Hat) by lia.
      rewrite wipe_entries_dir, wipe_tree_Dir.
      unfold os.path.join at 1. rewrite (resolve_join _ _ Hc).
      assert (lookup (resolve dir_path ++ [c]) (fs w) = Some (Dir sub)) as Hsub
        by (eapply lookup_child, Hn').
      cbn [fst snd].
      destruct (fst (wipe_entries sub)) eqn:Eok; cbn [outcome].
      * unfold bind at 1. unfold os.rmdir at 1.
        rewrite (node_at_eq _ _ (join_not_empty dir_path c Hc)).
        rewrite (resolve_join _ _ Hc).
        cbn [fs set_fs]. rewrite (lookup_put _ _ _ _ Hsub).
        destruct (resolve dir_path ++ [c]) as [|c0 p0] eqn:Ep.
        { now destruct (resolve dir_path). }
        rewrite <- Ep in *.
        destruct (snd (wipe_entries sub)) as [|e es'] eqn:Ees.
        -- cbn [ret]. rewrite set_fs_set_fs. cbn [fst snd].
           destruct (del_put _ (Dir []) _ _ Hsub) as [-> | E0];
             [|rewrite E0 in Ep; discriminate].
           now rewrite (del_child _ _ _ _ _ Hn').
        -- cbn [fst snd]. now rewrite (put_child _ _ _ _ _ _ Hn').
      * cbn [fst snd].
        destruct (snd (wipe_entries sub)) as [|e es'];
          cbn [fst snd outcome]; now rewrite (put_child _ _ _ _ _ _ Hn').
Qed.

Lemma wipe_dir_fuel_tree fuel :
  forall t path w, wf_node t = true -> os.node_at w path = Some t ->
    height t < fuel ->
    wipe_dir_fuel fuel path w =
    (outcome (fst (wipe_tree t)),
     set_fs w (put (resolve path) (snd (wipe_tree t)) (fs w))).
Proof.
  induction fuel as [|k IH]; intros t path w Hwf Hn Hh; [lia|].
  cbn [wipe_dir_fuel]. unfold bind at 1. unfold os.path.isdir at 1.
  rewrite Hn. destruct t as [s|es]; cbn [is_dir].
  - cbn. apply node_at_some in Hn as [_ Hn].
    now rewrite (put_same _ _ _ Hn), set_fs_same.
  - unfold bind at 1. unfold os.listdir at 1. rewrite Hn.
    rewrite (wipe_loop_tree _ k _ IH es w Hwf Hn Hh).
    now rewrite wipe_tree_Dir.
Qed.

Lemma wipe_dir_fuel_absent fuel path w :
  os.node_at w path = None -> wipe_dir_fuel (S fuel) path w = (Ok tt, w).
Proof.
  intros Hn. cbn [wipe_dir_fuel]. unfold bind, os.path.isdir.
  now rewrite Hn.
Qed.

Lemma get_entry_height c es ch :
  get_entry c es = Some ch -> height ch < height (Dir es).
Proof.
  induction es as [|[c' x] es IH]; cbn [get_entry]; [discriminate|].
  rewrite height_cons. destruct (String.eqb c' c).
  - intros [= ->]. lia.
  - intros H. specialize (IH H). lia.
Qed.

Lemma lookup_height p : forall root t,
  lookup p root = Some t -> height t <= height root.
Proof.
  induction p as [|c p IH]; intros root t; cbn [lookup].
  - intros [= ->]. lia.
  - destruct root as [|es]; [discriminate|].
    destruct (get_entry c es) as [ch|] eqn:E; [|discriminate].
    intros H. apply IH in H. apply get_entry_height in E. lia.
Qed.

Lemma get_entry_wf c es ch :
  wf_node (Dir es) = true -> get_entry c es = Some ch -> wf_node ch = true.
Proof.
  induction es as [|[c' x] es IH]; cbn [get_entry]; [discriminate|].
  intros Hwf. apply wf_node_cons in Hwf as (_ & Hx & Hes).
  destruct (String.eqb c' c); [now intros [= <-]|]. now apply IH.
Qed.

Lemma lookup_wf p : forall root t,
  wf_node root = true -> lookup p root = Some t -> wf_node t = true.
Proof.
  induction p as [|c p IH]; intros root t Hwf; cbn [lookup].
  - now intros [= <-].
  - destruct root as [|es]; [discriminate|].
    destruct (get_entry c es) as [ch|] eqn:E; [|discriminate].
    apply IH. eapply get_entry_wf; eauto.
Qed.

(** [wipe_dir] never runs out of recursion depth, and does to the world
    what [wipe_tree] does to the tree at [dir_path]. *)
Lemma wipe_dir_tree dir_path w t :
  wf_node (fs w) = true -> os.node_at w dir_path = Some t ->
  wipe_dir dir_path w =
  (outcome (fst (wipe_tree t)),
   set_fs w (put (resolve dir_path) (snd (wipe_tree t)) (fs w))).
Proof.
  intros Hwf Hn. destruct (node_at_some _ _ _ Hn) as [_ Hl].
  unfold wipe_dir. apply wipe_dir_fuel_tree; [|exact Hn|].
  - eapply lookup_wf; eauto.
  - apply lookup_height in Hl. lia.
Qed.

Lemma wipe_dir_absent dir_path w :
  os.node_at w dir_path = None -> wipe_dir dir_path w = (Ok tt, w).
Proof. intros Hn. now apply wipe_dir_fuel_absent. Qed.

(** More fuel than the height of the tree at [dir_path] changes nothing. *)
Lemma wipe_dir_fuel_enough fuel dir_path w t :
  wf_node (fs w) = true -> os.node_at w dir_path = Some t ->
  height t < fuel ->
  wipe_dir_fuel fuel dir_path w = wipe_dir dir_path w.
Proof.
  intros Hwf Hn Hh. rewrite (wipe_dir_tree _ _ _ Hwf Hn).
  apply wipe_dir_fuel_tree; auto.
  destruct (node_at_some _ _ _ Hn) as [_ Hl]. eapply lookup_wf; eauto.
Qed.

End WipeDir.

(** ** What [wipe_dir] removes *)

Section WipeDirSpec.

Import OS ArchiveExpander.

Lemma wipe_entries_files es :
  forallb is_file_entry es = true -> wipe_entries es = (true, []).
Proof.
  induction es as [|[c [s|sub]] es IH]; cbn [forallb]; intros H.
  - reflexivity.
  - rewrite wipe_entries_file. apply IH. now apply andb_prop in H as [_ H].
  - discriminate.
Qed.

Lemma wipe_entries_app before rest :
  forallb is_file_entry before = true ->
  wipe_entries (before ++ rest) = wipe_entries rest.
Proof.
  induction before as [|[c [s|sub]] es IH]; cbn [forallb app]; intros H.
  - reflexivity.
  - rewrite wipe_entries_file. apply IH. now apply andb_prop in H as [_ H].
  - discriminate.
Qed.

Lemma get_entry_app_files d x before after :
  forallb is_file_entry before = true ->
  exists y, get_entry d (before ++ (d, x) :: after) = Some y /\
            (y = x \/ exists s, y = File s).
Proof.
  induction before as [|[c [s|sub]] es IH]; cbn [forallb app get_entry]; intros H.
  - rewrite String.eqb_refl. eauto.
  - destruct (String.eqb c d); [eauto|].
    apply IH. now apply andb_prop in H as [_ H].
  - discriminate.
Qed.

(** C10. On a well-formed tree: a path that is not a directory is left
    alone; a directory that lists regular files only is emptied; and when
    the listing has a first subdirectory whose own wipe leaves it empty,
    the files listed before it and that subdirectory are removed and the
    call returns there, the entries listed after it staying as they
    were. *)
Theorem wipe_dir_first_subdirectory (w : World) (dir_path : string) :
  wf_node (fs w) = true ->
  (is_dir (os.node_at w dir_path) = false ->
     wipe_dir dir_path w = (Ok tt, w)) /\
  (forall es,
     os.node_at w dir_path = Some (Dir es) ->
     forallb is_file_entry es = true ->
     wipe_dir dir_path w =
       (Ok tt, set_fs w (put (resolve dir_path) (Dir []) (fs w)))) /\
  (forall before d sub after w1,
     os.node_at w dir_path = Some (Dir (before ++ (d, Dir sub) :: after)) ->
     forallb is_file_entry before = true ->
     wipe_dir (os.path.join dir_path d) w = (Ok tt, w1) ->
     os.node_at w1 (os.path.join dir_path d) = Some (Dir []) ->
     wipe_dir dir_path w =
       (Ok tt, set_fs w (put (resolve dir_path) (Dir after) (fs w)))).
Proof.
  intros Hwf. split; [|split].
  - intros Hd. destruct (os.node_at w dir_path) as [t|] eqn:Hn.
    + destruct t as [s|es]; [|discriminate].
      rewrite (wipe_dir_tree _ _ _ Hwf Hn). cbn.
      apply node_at_some in Hn as [_ Hn].
      now rewrite (put_same _ _ _ Hn), set_fs_same.
    + now apply wipe_dir_absent.
  - intros es Hn Hfiles. rewrite (wipe_dir_tree _ _ _ Hwf Hn).
    now rewrite wipe_tree_Dir, (wipe_entries_files _ Hfiles).
  - intros before d sub after w1 Hn Hfiles Hsub Hempty.
    rewrite (wipe_dir_tree _ _ _ Hwf Hn).
    rewrite wipe_tree_Dir, (wipe_entries_app _ _ Hfiles), wipe_entries_dir.
    destruct (node_at_some _ _ _ Hn) as [_ Hl].
    assert (wf_node (Dir (before ++ (d, Dir sub) :: after)) = true) as Hwfd
      by (eapply lookup_wf; eauto).
    assert (valid_name d = true) as Hd.
    { clear -Hwfd. induction before as [|[c x] es IH].
      - now apply wf_node_cons in Hwfd as (? & _).
      - apply IH. now apply wf_node_cons in Hwfd as (_ & _ & ?). }
    destruct (get_entry_app_files d (Dir sub) before after Hfiles)
      as (y & Hy & Hcase).
    assert (os.node_at w (os.path.join dir_path d) = Some y) as Hat.
    { rewrite (node_at_join _ _ _ Hd), lookup_app.
      rewrite Hl. cbn [lookup]. now rewrite Hy. }
    rewrite (wipe_dir_tree _ _ _ Hwf Hat) in Hsub.
    injection Hsub as Hok Hw1. subst w1.
    destruct (node_at_some _ _ _ Hat) as [Hne Hat'].
    rewrite (node_at_eq _ _ Hne) in Hempty. cbn [fs set_fs] in Hempty.
    rewrite (lookup_put _ _ _ _ Hat') in Hempty. injection Hempty as Hempty.
    destruct Hcase as [-> | [s ->]]; [|discriminate].
    destruct (wipe_tree (Dir sub)) as [[|] t']; cbn in Hok, Hempty;
      [|discriminate].
    now subst t'.
Qed.

(** The three cases of C10 on [Sample.tree]: [note.txt] is no directory,
    [files/] holds files only, and in [flat/] the subdirectory [d/] comes
    after [a] and before [z]. *)
Lemma wipe_dir_first_subdirectory_witness :
  let w := Sample.world_of Sample.tree in
  wf_node (fs w) = true /\
  wipe_dir "note.txt" w = (Ok tt, w) /\
  fst (os.listdir "files" (snd (wipe_dir "files" w))) = Ok [] /\
  fst (wipe_dir "flat" w) = Ok tt /\
  fst (os.listdir "flat" (snd (wipe_dir "flat" w))) = Ok ["z"].
Proof.
  intros w. split; [reflexivity|].
  split; [|split].
  - apply (wipe_dir_first_subdirectory w "note.txt"); reflexivity.
  - destruct (wipe_dir_first_subdirectory w "files" eq_refl) as (_ & H & _).
    rewrite (H [("p", File "4"); ("q", File "5")]); reflexivity.
  - destruct (wipe_dir_first_subdirectory w "flat" eq_refl) as (_ & _ & H).
    rewrite (H [("a", File "1")] "d" [("inner", File "2")] [("z", File "3")]
               (snd (wipe_dir "flat/d" w)));
      [split| | | |]; reflexivity.
Defined.

(** When the wipe of the first subdirectory leaves something in it,
    [os.rmdir] refuses and the error reaches the caller. *)
Lemma wipe_dir_rmdir_refuses (w : World) (dir_path : string) before d sub after :
  wf_node (fs w) = true ->
  os.node_at w dir_path = Some (Dir (before ++ (d, Dir sub) :: after)) ->
  forallb is_file_entry before = true ->
  snd (wipe_entries sub) <> [] ->
  fst (wipe_dir dir_path w) = Raise OSError.
Proof.
  intros Hwf Hn Hfiles Hne. rewrite (wipe_dir_tree _ _ _ Hwf Hn). cbn [fst].
  rewrite wipe_tree_Dir, (wipe_entries_app _ _ Hfiles), wipe_entries_dir.
  rewrite wipe_tree_Dir. cbn [fst].
  destruct (wipe_entries sub) as [ok [|e es]]; [easy|].
  now destruct ok.
Qed.

(** C10 as stated fails on [t/]: its first subdirectory [sub/] holds the
    directory [subsub/] before the file [f]; the inner call stops after
    [subsub/], [os.rmdir] finds [sub/] not empty, and [wipe_dir] raises
    with [sub/] still there. *)
Lemma wipe_dir_nested_raises :
  let w := Sample.world_of Sample.tree in
  fst (os.listdir "t" w) = Ok ["sub"; "g"] /\
  fst (os.path.isdir "t/sub" w) = Ok true /\
  fst (wipe_dir "t" w) = Raise OSError /\
  fst (os.path.isdir "t/sub" (snd (wipe_dir "t" w))) = Ok true /\
  fst (os.listdir "t" (snd (wipe_dir "t" w))) = Ok ["sub"; "g"].
Proof. vm_compute. repeat split. Qed.

End WipeDirSpec.

(** ** [ArchiveExpander.invoke] *)

Section ArchiveExpanderInvoke.

Import ArchiveExpander.
Context `{B : Builtins}.


End ArchiveExpanderInvoke.

Section ArchiveExpanderExamples.

Import ArchiveExpander Sample.


End ArchiveExpanderExamples.

Section ArchiveExpanderFailures.

Import ArchiveExpander Sample.

(** Outside the conditions of C6 the call does not return: with a target
    directory that does not exist and an input that is no ZIP file,
    nothing creates the directory and [os.listdir] raises; with the nested
    [t/] the wipe itself raises. *)
Lemma ArchiveExpander_invoke_raises :
  let w := world_of tree in
  fst (invoke ZipArchiveExpander.methods (packet_of (DStr "note.txt"))
         (mkSt (init "nowhere" false true) w)) = Raise OSError /\
  fst (invoke ZipArchiveExpander.methods (packet_of (DStr "in.zip"))
         (mkSt (init "t" false true) w)) = Raise OSError.
Proof. vm_compute. split; reflexivity. Qed.

(** With the default [clear_target_dir] and [None] for a packet,
    [after_chain_invoke] fails in [output_path]. *)
Lemma ArchiveExpander_after_chain_invoke_None (target_dir : string)
    (archive : Data) (w : World) :
  let self0 := mk target_dir false true archive in
  after_chain_invoke None (mkSt self0 w) = (Raise AttributeError, mkSt self0 w).
Proof. reflexivity. Qed.

End ArchiveExpanderFailures.

(** ** [FileExtractor.invoke] *)

Section FileExtractorInvoke.

Import OS FileExtractor.

Lemma get_entry_removed c es :
  wf_node (Dir es) = true ->
  get_entry c (update_entries c (fun _ => None) es) = None.
Proof.
  induction es as [|[c' x] es IH]; intros Hwf; cbn; [reflexivity|].
  pose proof (wf_node_fresh _ _ _ Hwf) as Hfresh.
  apply wf_node_cons in Hwf as (_ & _ & Hes).
  destruct (String.eqb c' c) eqn:E.
  - apply String.eqb_eq in E. subst c'. clear -Hfresh.
    induction es as [|[c'' y] es IH]; [reflexivity|].
    cbn in *. apply orb_false_elim in Hfresh as [H1 H2].
    rewrite H1. now apply IH.
  - cbn. rewrite E. now apply IH.
Qed.

Lemma update_cons c p g es :
  update (c :: p) g (Some (Dir es)) =
  Some (Dir (update_entries c (update p g) es)).
Proof. reflexivity. Qed.

Lemma lookup_cons c p es :
  lookup (c :: p) (Dir es) =
  match get_entry c es with Some ch => lookup p ch | None => None end.
Proof. reflexivity. Qed.

Lemma update_none_gone p : forall n a,
  wf_node n = true -> lookup p n = Some a -> p <> [] ->
  exists n', update p (fun _ => None) (Some n) = Some n' /\
             lookup p n' = None.
Proof.
  induction p as [|c p IH]; intros n a Hwf Hl Hp; [easy|].
  destruct n as [|es]; [discriminate|]. rewrite lookup_cons in Hl.
  destruct (get_entry c es) as [ch|] eqn:E; [|discriminate].
  rewrite update_cons. eexists; split; [reflexivity|]. rewrite lookup_cons.
  destruct p as [|c' p].
  - change (update [] (fun _ : option node => None))
      with (fun _ : option node => @None node).
    now rewrite (get_entry_removed _ _ Hwf).
  - destruct (IH ch a) as (ch' & Hu & Hg);
      [eapply get_entry_wf; eauto|exact Hl|discriminate|].
    rewrite (update_entries_at _ _ _ _ E), Hu.
    now rewrite (get_entry_update _ _ _ _ E).
Qed.

(** After [os.remove] the path names nothing. *)
Lemma remove_gone path w s :
  wf_root (fs w) = true -> os.node_at w path = Some (File s) ->
  os.node_at (set_fs w (del (resolve path) (fs w))) path = None.
Proof.
  intros Hwf Hn. apply andb_prop in Hwf as [Hroot Hwf].
  destruct (node_at_some _ _ _ Hn) as [Hne Hl].
  rewrite (node_at_eq _ _ Hne). cbn [fs set_fs]. unfold del, update_root.
  destruct (resolve path) as [|c p] eqn:Ep.
  - cbn in Hl. injection Hl as Hl. now rewrite Hl in Hroot.
  - destruct (update_none_gone (c :: p) _ _ Hwf Hl) as (n' & -> & Hg);
      [discriminate|exact Hg].
Qed.

Lemma delete_target_file_run cls self packet p w :
  m_output_path cls self packet = Ok p ->
  delete_target_file cls self packet w = (Ok tt, target_deleted p w).
Proof.
  intros Hp. unfold delete_target_file, target_deleted.
  unfold bind at 1. unfold lift at 1. rewrite Hp.
  unfold bind at 1. unfold os.path.isfile at 1.
  destruct (os.node_at w p) as [[s|es]|] eqn:Hn; cbn [is_file]; try reflexivity.
  unfold bind, lift. unfold os.remove. now rewrite Hn.
Qed.

(** [invoke] on a packet with data, step by step. *)
Lemma invoke_with_data (cls : Methods) (self : t) (packet : Packet)
    (p : string) (w : World) (r : Res unit) (w2 : World) :
  data packet <> DNone ->
  m_output_path cls self (Some packet) = Ok p ->
  m_extract_file cls self packet (target_deleted p w) = (r, w2) ->
  invoke cls self packet w =
    match r with
    | Ok _ =>
        if is_file (os.node_at w2 p)
        then (Ok (set_data packet (DStr p)), w2)
        else (Ok (set_data packet DNone), add_log w2 (warn_missing p))
    | Raise e => (Raise e, w2)
    | Diverge => (Diverge, w2)
    end.
Proof.
  intros Hd Hp He. unfold invoke.
  destruct (is_None (data packet)) eqn:En; [now destruct (data packet)|].
  unfold bind at 1. rewrite (delete_target_file_run _ _ _ _ _ Hp).
  unfold bind at 1. rewrite He. destruct r as [[]|e|]; try reflexivity.
  unfold bind at 1. unfold lift at 1. rewrite Hp.
  unfold bind at 1. cbn [data set_data os.path.isfile_obj].
  unfold os.path.isfile at 1.
  now destruct (is_file (os.node_at w2 p)).
Qed.

(** On a well-formed file system [delete_target_file] leaves no regular
    file at the output path. *)
Lemma target_deleted_gone (p : string) (w : World) :
  wf_root (fs w) = true -> is_file (os.node_at (target_deleted p w) p) = false.
Proof.
  intros Hwf. unfold target_deleted.
  destruct (os.node_at w p) as [[s|es]|] eqn:Hn; cbn [is_file];
    try now rewrite Hn.
  now rewrite (remove_gone _ _ _ Hwf Hn).
Qed.

(** C5. For a packet that carries data, when the output path is [p] and
    the extraction goes through, [invoke] has first removed a regular file
    found at [p] (on a well-formed file system nothing is left at [p]
    then), has run the extraction on the world so obtained, and returns
    the packet with [data] set to [p] when [p] names a regular file
    afterwards and to [None], with a warning logged, when it does not. *)
Theorem FileExtractor_invoke_post (cls : Methods) (self : t)
    (packet : Packet) (p : string) (w w2 : World) :
  data packet <> DNone ->
  m_output_path cls self (Some packet) = Ok p ->
  m_extract_file cls self packet (target_deleted p w) = (Ok tt, w2) ->
  invoke cls self packet w =
    (if is_file (os.node_at w2 p)
     then (Ok (set_data packet (DStr p)), w2)
     else (Ok (set_data packet DNone), add_log w2 (warn_missing p))) /\
  (wf_root (fs w) = true -> is_file (os.node_at (target_deleted p w) p) = false).
Proof.
  intros Hd Hp He. split.
  - now rewrite (invoke_with_data _ _ _ _ _ _ _ Hd Hp He).
  - apply target_deleted_gone.
Qed.

(** An exception of the extraction leaves [invoke] as it is. *)
Lemma invoke_propagates (cls : Methods) (self : t) (packet : Packet)
    (p : string) (w w2 : World) (e : exn) :
  data packet <> DNone ->
  m_output_path cls self (Some packet) = Ok p ->
  m_extract_file cls self packet (target_deleted p w) = (Raise e, w2) ->
  invoke cls self packet w = (Raise e, w2).
Proof.
  intros Hd Hp He. now rewrite (invoke_with_data _ _ _ _ _ _ _ Hd Hp He).
Qed.

End FileExtractorInvoke.

Section CopyLoop.

Import FileExtractor.

(** The copy loop of [ZipFileExtractor.extract_file] stops before its
    rounds are used up. *)
Lemma copy_loop_ends content size f fuel : forall pos w,
  String.length content - pos < fuel ->
  fst (copy_loop fuel content pos size f w) <> Diverge.
Proof.
  induction fuel as [|k IH]; intros pos w Hlt; [lia|].
  cbn [copy_loop].
  set (n := if (size <? 0)%Z then String.length content else Z.to_nat size).
  pose proof (substring_length_le content pos n) as Hlen.
  destruct (String.substring pos n content) as [|a buffer] eqn:Eb.
  - discriminate.
  - change (String.eqb (String a buffer) EmptyString) with false. cbv iota.
    unfold bind. destruct (write_frame f (String a buffer) w) as [_ Hd].
    destruct (os.write f (String a buffer) w) as [[[]|e|] w1];
      cbn [fst snd] in *; [|discriminate|easy].
    apply IH. cbn in Hlen. cbn. lia.
Qed.

End CopyLoop.

Section FileExtractorExamples.

Import OS FileExtractor Sample.

(** X9. The base class extracts nothing: on a well-formed file system
    [FileExtractor.invoke] of the base class answers every packet that
    carries data with a Skip, whatever was at [file_path] before. *)
Lemma FileExtractor_base_invoke_skips (self : t) (packet : Packet) (w : World) :
  data packet <> DNone -> wf_root (fs w) = true ->
  fst (invoke methods self packet w) = Ok (set_data packet DNone).
Proof.
  intros Hd Hwf.
  rewrite (invoke_with_data methods self packet (file_path self) w (Ok tt)
             (add_log (target_deleted (file_path self) w) error_abstract)
             Hd eq_refl eq_refl).
  change (os.node_at (add_log ?w' _) ?p) with (os.node_at w' p).
  now rewrite (target_deleted_gone _ _ Hwf).
Qed.

(** X9 on [Sample.tree]: [note.txt] exists, and still the packet comes
    back without data. *)
Lemma FileExtractor_base_invoke_skips_witness :
  let self0 := mk "note.txt" true DEFAULT_BUFFER_SIZE in
  let packet := packet_of (DStr "anything") in
  let w := world_of tree in
  data packet <> DNone /\ wf_root (fs w) = true /\
  fst (invoke methods self0 packet w) = Ok (set_data packet DNone).
Proof.
  intros self0 packet w. split; [discriminate|]. split; [reflexivity|].
  apply FileExtractor_base_invoke_skips; [discriminate|reflexivity].
Defined.

(** C5 on [Sample.tree], with the dynamic output path of
    [ZipFileExtractor]: the member of [in.zip] ends up in
    [out_member.txt]. *)
Lemma FileExtractor_invoke_post_witness :
  let cls := ZipFileExtractor.methods in
  let self := mk "out_%s" true DEFAULT_BUFFER_SIZE in
  let packet := packet_of (DDict (<["file_path" := "in.zip"]>
                                    (<["name" := "member.txt"]> ∅))) in
  let w := world_of tree in
  data packet <> DNone /\
  m_output_path cls self (Some packet) = Ok "out_member.txt" /\
  fst (invoke cls self packet w) = Ok (set_data packet (DStr "out_member.txt")) /\
  fst (os.read_file "out_member.txt" (snd (invoke cls self packet w))) =
    Ok "hello".
Proof.
  intros cls self packet w.
  split; [discriminate|]. split; [reflexivity|].
  pose (w2 := snd (m_extract_file cls self packet
                     (target_deleted "out_member.txt" w))).
  destruct (FileExtractor_invoke_post cls self packet "out_member.txt" w w2)
    as [Hi _]; [discriminate|reflexivity|reflexivity|].
  rewrite Hi. split; reflexivity.
Defined.

End FileExtractorExamples.

(** ** Packets without data *)

Section Skip.

Context `{B : Builtins}.

(** C3. A packet whose [data] is [None] comes back as it is from both
    [invoke] methods; the object is unchanged and the world differs only
    by the log line [Input data is empty]: file system and GDAL state are
    untouched. *)
Theorem skip_passes_through (packet : Packet) :
  data packet = DNone ->
  (forall (cls : ArchiveExpander.Methods) (s : St ArchiveExpander.t),
     ArchiveExpander.invoke cls packet s =
       (Ok packet,
        mkSt (self s) (add_log (world s) ArchiveExpander.info_empty)) /\
     fs (world (snd (ArchiveExpander.invoke cls packet s))) = fs (world s) /\
     gdal (world (snd (ArchiveExpander.invoke cls packet s))) = gdal (world s)) /\
  (forall (cls : FileExtractor.Methods) (self : FileExtractor.t) (w : World),
     FileExtractor.invoke cls self packet w =
       (Ok packet, add_log w FileExtractor.info_empty) /\
     fs (snd (FileExtractor.invoke cls self packet w)) = fs w /\
     gdal (snd (FileExtractor.invoke cls self packet w)) = gdal w).
Proof.
  intros Hd. split.
  - intros cls s.
    assert (ArchiveExpander.invoke cls packet s =
            (Ok packet,
             mkSt (self s) (add_log (world s) ArchiveExpander.info_empty))) as E.
    { unfold ArchiveExpander.invoke. rewrite Hd. reflexivity. }
    rewrite E. auto.
  - intros cls self w.
    assert (FileExtractor.invoke cls self packet w =
            (Ok packet, add_log w FileExtractor.info_empty)) as E.
    { unfold FileExtractor.invoke. rewrite Hd. reflexivity. }
    rewrite E. auto.
Qed.

End Skip.

Section SkipExamples.

Import Sample.

(** C3 on [Sample.tree], for the two ZIP classes. *)
Lemma skip_passes_through_witness :
  let packet := packet_of DNone in
  let w := world_of tree in
  data packet = DNone /\
  fst (ArchiveExpander.invoke ZipArchiveExpander.methods packet
         (mkSt (ArchiveExpander.init "files" true true) w)) = Ok packet /\
  fst (FileExtractor.invoke ZipFileExtractor.methods
         (FileExtractor.mk "note.txt" true DEFAULT_BUFFER_SIZE) packet w)
    = Ok packet /\
  fs (snd (FileExtractor.invoke ZipFileExtractor.methods
             (FileExtractor.mk "note.txt" true DEFAULT_BUFFER_SIZE) packet w))
    = tree.
Proof.
  intros packet w. split; [reflexivity|].
  destruct (skip_passes_through packet eq_refl) as [Ha Hf].
  split; [|split].
  - now destruct (Ha ZipArchiveExpander.methods
                    (mkSt (ArchiveExpander.init "files" true true) w))
      as (-> & _).
  - now destruct (Hf ZipFileExtractor.methods
                    (FileExtractor.mk "note.txt" true DEFAULT_BUFFER_SIZE) w)
      as (-> & _).
  - now destruct (Hf ZipFileExtractor.methods
                    (FileExtractor.mk "note.txt" true DEFAULT_BUFFER_SIZE) w)
      as (_ & -> & _).
Defined.

End SkipExamples.

(** ** [after_chain_invoke] *)

Section AfterChainInvoke.

Context `{B : Builtins} `{ZL : ZipLib}.

(** With [remove_input_file] and [clear_target_dir] both off,
    [ArchiveExpander.after_chain_invoke] returns [True]. *)
Lemma ArchiveExpander_after_chain_invoke_plain (target_dir : string)
    (archive : Data) (packet : option Packet) (w : World) :
  let self0 := ArchiveExpander.mk target_dir false false archive in
  ArchiveExpander.after_chain_invoke packet (mkSt self0 w) =
    (Ok (VBool true), mkSt self0 w).
Proof. reflexivity. Qed.

(** Whenever [ArchiveExpander.after_chain_invoke] returns, it returns
    [True]. *)
Lemma ArchiveExpander_after_chain_invoke_true (packet : option Packet)
    (s s' : St ArchiveExpander.t) (v : Value) :
  ArchiveExpander.after_chain_invoke packet s = (Ok v, s') -> v = VBool true.
Proof.
  unfold ArchiveExpander.after_chain_invoke, bind, get_self, ret.
  destruct (if ArchiveExpander.remove_input_file (self s) then _ else _)
    as [[[]| |] s1]; try discriminate.
  destruct (if ArchiveExpander.clear_target_dir (self s) then _ else _)
    as [[[]| |] s2]; try discriminate.
  now intros [= <- _].
Qed.

(** Before any packet was seen, [self.input_archive_file] is [None] and
    removing the input file fails in [os.path.isfile]. *)
Lemma ArchiveExpander_after_chain_invoke_no_input (target_dir : string)
    (clear : bool) (packet : option Packet) (w : World) :
  let self0 := ArchiveExpander.init target_dir true clear in
  ArchiveExpander.after_chain_invoke packet (mkSt self0 w) =
    (Raise TypeError, mkSt self0 w).
Proof. reflexivity. Qed.

(** C2. With [delete_file] off, [FileExtractor.after_chain_invoke] leaves
    through the bare [return]: the caller gets [None], which is no
    boolean, whatever the class, the packet and the world. *)
Theorem FileExtractor_after_chain_invoke_returns_None
    (cls : FileExtractor.Methods) (file_path : string) (buffer_size : Z)
    (packet : option Packet) (w : World) :
  FileExtractor.after_chain_invoke cls
    (FileExtractor.mk file_path false buffer_size) packet w = (Ok VNone, w) /\
  is_bool VNone = false.
Proof. split; reflexivity. Qed.

(** With [delete_file] on and a packet at hand, the call removes the
    target file and returns [True]. *)
Lemma FileExtractor_after_chain_invoke_true (cls : FileExtractor.Methods)
    (self : FileExtractor.t) (packet : option Packet) (p : string) (w : World) :
  FileExtractor.delete_file self = true ->
  FileExtractor.m_output_path cls self packet = Ok p ->
  FileExtractor.after_chain_invoke cls self packet w =
    (Ok (VBool true), FileExtractor.target_deleted p w).
Proof.
  intros Hd Hp. unfold FileExtractor.after_chain_invoke. rewrite Hd.
  cbn [negb]. unfold bind.
  now rewrite (delete_target_file_run _ _ _ _ _ Hp).
Qed.

(** C4. With [delete_file] on and [None] for a packet, the derived
    classes fail: their [output_path] reads [packet.data] first and raises
    [AttributeError], with or without [%s] in [file_path]; only the base
    class, whose [output_path] ignores the packet, completes. *)
Theorem after_chain_invoke_None_raises (file_path : string) (buffer_size : Z)
    (w : World) :
  let self := FileExtractor.mk file_path true buffer_size in
  FileExtractor.after_chain_invoke ZipFileExtractor.methods self None w =
    (Raise AttributeError, w) /\
  FileExtractor.after_chain_invoke VsiFileExtractor.methods self None w =
    (Raise AttributeError, w) /\
  FileExtractor.after_chain_invoke FileExtractor.methods self None w =
    (Ok (VBool true), FileExtractor.target_deleted file_path w).
Proof.
  intros self0. split; [reflexivity|]. split; [reflexivity|].
  now apply FileExtractor_after_chain_invoke_true.
Qed.

End AfterChainInvoke.

(** ** [VsiFileExtractor.extract_file] *)

Section VsiExtract.

Import FileExtractor VsiFileExtractor.
Context `{B : Builtins}.

Lemma output_path_returns self packet : output_path self packet <> Diverge.
Proof.
  unfold output_path, packet_data, pure.
  destruct packet as [pk|]; [|discriminate].
  destruct (data pk); try discriminate.
  destruct (Str.contains _ _); [|discriminate].
  now destruct (str_mod _ _).
Qed.

Lemma get_handle_opened h hv m0 w :
  Gdal.handles (gdal w) = <[h := hv]> m0 ->
  gdal.get_handle (Some h) w = (Ok hv, w).
Proof. intros E. unfold gdal.get_handle. now rewrite E, lookup_insert_eq. Qed.

Lemma set_handle_opened h hv hv' m0 w :
  Gdal.handles (gdal w) = <[h := hv]> m0 ->
  exists w', gdal.set_handle (Some h) hv' w = (Ok tt, w') /\
             Gdal.handles (gdal w') = <[h := hv']> m0.
Proof.
  intros E. eexists; split; [reflexivity|]. cbn.
  now rewrite E, insert_insert_eq.
Qed.

Lemma VSIFSeekL_opened h hv m0 w offset whence :
  Gdal.handles (gdal w) = <[h := hv]> m0 ->
  exists w' pos,
    gdal.VSIFSeekL (Some h) offset whence w = (Ok tt, w') /\
    Gdal.handles (gdal w') = <[h := Gdal.mkHandle (Gdal.h_content hv) pos]> m0 /\
    (whence = 2%Z -> offset = 0%Z -> pos = String.length (Gdal.h_content hv)) /\
    (whence = 0%Z -> offset = 0%Z -> pos = 0).
Proof.
  intros E. unfold gdal.VSIFSeekL, bind.
  rewrite (get_handle_opened _ _ _ _ E).
  edestruct (set_handle_opened h hv) as (w' & -> & E'); [exact E|].
  eexists _, _. split; [reflexivity|]. split; [exact E'|].
  split; intros -> ->; cbn; lia.
Qed.

Lemma VSIFTellL_opened h hv m0 w :
  Gdal.handles (gdal w) = <[h := hv]> m0 ->
  gdal.VSIFTellL (Some h) w = (Ok (Z.of_nat (Gdal.h_pos hv)), w).
Proof.
  intros E. unfold gdal.VSIFTellL, bind.
  now rewrite (get_handle_opened _ _ _ _ E).
Qed.

Lemma VSIFReadL_opened h hv m0 w size count :
  Gdal.handles (gdal w) = <[h := hv]> m0 ->
  exists w' buffer,
    gdal.VSIFReadL size count (Some h) w = (Ok buffer, w') /\
    Gdal.handles (gdal w') =
      <[h := Gdal.mkHandle (Gdal.h_content hv)
               (Gdal.h_pos hv + String.length buffer)]> m0 /\
    String.length buffer <= String.length (Gdal.h_content hv) - Gdal.h_pos hv.
Proof.
  intros E. unfold gdal.VSIFReadL. unfold bind at 1.
  rewrite (get_handle_opened _ _ _ _ E). unfold bind.
  edestruct (set_handle_opened h hv) as (w' & -> & E'); [exact E|].
  eexists _, _. split; [reflexivity|]. split; [exact E'|].
  apply substring_length_le.
Qed.

(** The read loop stops before its rounds are used up, and leaves the
    handle open. *)
Lemma read_loop_opened h m0 read_size f fuel : forall hv w,
  Gdal.handles (gdal w) = <[h := hv]> m0 ->
  String.length (Gdal.h_content hv) - Gdal.h_pos hv < fuel ->
  holds (read_loop fuel read_size (Some h) f) w
        (fun r w' => opened h m0 w' /\ r <> Diverge).
Proof.
  induction fuel as [|k IH]; intros hv w E Hlt; [lia|].
  cbn [read_loop]. apply holds_bind. unfold holds.
  destruct (VSIFReadL_opened h hv m0 w 1 read_size E)
    as (w1 & buffer & -> & E1 & Hlen). cbn [fst snd].
  destruct (String.eqb buffer EmptyString) eqn:Eb.
  - unfold holds, ret. cbn [fst snd]. split; [eexists; exact E1|discriminate].
  - apply holds_bind. unfold holds.
    destruct (write_frame f buffer w1) as [Hg Hd].
    destruct (os.write f buffer w1) as [[[]|e|] w2]; cbn [fst snd] in *.
    + apply (IH (Gdal.mkHandle (Gdal.h_content hv)
                   (Gdal.h_pos hv + String.length buffer))).
      * now rewrite Hg.
      * cbn. destruct buffer; [discriminate|]. cbn in *. lia.
    + split; [|discriminate]. eexists. rewrite Hg. exact E1.
    + easy.
Qed.

(** The [with] block when [VSIFOpenL] gave the handle [h]. *)
Lemma extract_with_opened fe packet h m0 s :
  opened h m0 (world s) ->
  holds (extract_with fe packet (Some h)) s
        (fun r s' => opened h m0 (world s') /\
                     vsi (self s') = vsi (self s) /\ r <> Diverge).
Proof.
  intros Ho. unfold extract_with. apply holds_bind. unfold holds, lift.
  cbn [fst snd]. pose proof (output_path_returns fe (Some packet)) as Hout.
  destruct (output_path fe (Some packet)) as [out|e|]; [|easy|easy].
  apply holds_bind, holds_in_world. unfold holds.
  destruct (open_wb_frame out (world s)) as [Hg Hd].
  destruct (os.open_wb out (world s)) as [[f|e|] w1]; cbn [fst snd] in *;
    [| |easy].
  2:{ split; [|easy]. destruct Ho as [hv E]. exists hv. cbn. now rewrite Hg. }
  destruct Ho as [hv E]. rewrite <- Hg in E.
  apply holds_bind, holds_in_world. unfold holds. cbn [world set_world].
  destruct (VSIFSeekL_opened h hv m0 w1 0 2 E) as (w2 & pos & -> & E2 & Hp & _).
  rewrite (Hp eq_refl eq_refl) in E2. clear Hp pos. cbn [fst snd].
  apply holds_bind, holds_in_world. unfold holds. cbn [world set_world].
  rewrite (VSIFTellL_opened _ _ _ _ E2). cbn [fst snd Gdal.h_pos].
  apply holds_bind. unfold holds, set_vsi_len. cbn [fst snd].
  apply holds_bind, holds_in_world. unfold holds.
  cbn [world set_world set_self self].
  destruct (VSIFSeekL_opened h _ m0 w2 0 0 E2) as (w3 & pos & -> & E3 & _ & Hp).
  rewrite (Hp eq_refl eq_refl) in E3. clear Hp pos. cbn [fst snd].
  cbn [Gdal.h_content] in E3.
  apply holds_in_world. cbn [world set_world].
  eapply holds_weaken.
  - eapply read_loop_opened; [exact E3|]. cbn. lia.
  - cbn. intros r w' [H1 H2]. auto.
Qed.

(** The [with] block when [VSIFOpenL] gave [None]: the first [VSIFSeekL]
    at the latest raises. *)
Lemma extract_with_null fe packet s :
  holds (extract_with fe packet None) s
        (fun r s' => gdal (world s') = gdal (world s) /\
                     vsi (self s') = vsi (self s) /\
                     exists e, r = Raise e).
Proof.
  unfold extract_with. apply holds_bind. unfold holds, lift.
  cbn [fst snd]. pose proof (output_path_returns fe (Some packet)) as Hout.
  destruct (output_path fe (Some packet)) as [out|e|]; [|eauto|easy].
  apply holds_bind, holds_in_world. unfold holds.
  destruct (open_wb_frame out (world s)) as [Hg Hd].
  destruct (os.open_wb out (world s)) as [[f|e|] w1]; cbn [fst snd] in *;
    [|eauto|easy].
  cbn. eauto.
Qed.

(** What the [try] block leaves: either no handle was opened, then the
    block raised and GDAL is as before, or the handle in [vsi] is a fresh
    one that is still open. *)
Lemma extract_try_post fe packet w :
  holds (extract_try fe packet (data packet)) (mkSt (mkLocals None 0) w)
    (fun r s =>
       r <> Diverge /\
       ((vsi (self s) = None /\ gdal (world s) = gdal w /\
         exists e, r = Raise e) \/
        (exists h, vsi (self s) = Some h /\
                   Gdal.handles (gdal w) !! h = None /\
                   opened h (Gdal.handles (gdal w)) (world s)))).
Proof.
  unfold extract_try. apply holds_bind, holds_in_world. unfold holds.
  cbn [fst snd Log.info Log.emit modify world set_world].
  apply holds_bind, holds_in_world. unfold holds. cbn [world].
  destruct (data packet) as [|p|d|z|n]; cbn [gdal.VSIFOpenL raise fst snd];
    try (split; [discriminate|left; eauto]).
  cbn [world set_world gdal add_log].
  destruct (Gdal.vsi_files (gdal w) !! p) as [c|]; cbn [fst snd].
  - set (h := fresh (dom (Gdal.handles (gdal w)))).
    apply holds_bind. unfold holds, set_vsi. cbn [fst snd].
    eapply holds_weaken.
    + apply (extract_with_opened fe packet h (Gdal.handles (gdal w))).
      eexists. reflexivity.
    + cbn. intros r s' (Ho & Hv & Hd). split; [exact Hd|]. right.
      exists h. split; [exact Hv|]. split; [|exact Ho].
      apply not_elem_of_dom. apply is_fresh.
  - apply holds_bind. unfold holds, set_vsi. cbn [fst snd].
    eapply holds_weaken; [apply extract_with_null|].
    cbn. intros r s' (Hg & Hv & e & ->). split; [discriminate|]. left. eauto.
Qed.

Lemma extract_finally_null d s :
  vsi (self s) = None -> extract_finally d s = (Ok tt, s).
Proof. intros E. unfold extract_finally, bind, get_self. now rewrite E. Qed.

Lemma extract_finally_opened d s h m0 :
  vsi (self s) = Some h -> m0 !! h = None -> opened h m0 (world s) ->
  exists s', extract_finally d s = (Ok tt, s') /\
             Gdal.handles (gdal (world s')) = m0.
Proof.
  intros Ev Hf [hv E]. unfold extract_finally. unfold bind at 1.
  unfold get_self at 1. rewrite Ev. unfold bind at 1.
  cbn [in_world Log.info Log.emit modify world set_world].
  unfold in_world, gdal.VSIFCloseL, bind. cbn [world].
  rewrite (get_handle_opened h hv m0) by exact E.
  eexists; split; [reflexivity|]. cbn.
  rewrite E. now apply delete_insert_id.
Qed.

(** C7. What [extract_file] hands to its caller is the outcome of its
    [try] block: an exception raised there is raised again, one that is
    not an [Exception] passes through, a normal end stays one, and the
    call always ends. The handles open afterwards are those that were open
    before: a handle that [VSIFOpenL] gave was new, was still open when
    the [try] block ended, and has been closed by the [finally] clause. *)
Theorem VsiFileExtractor_extract_file_reraises_and_closes
    (fe : t) (packet : Packet) (w : World) :
  let tried := extract_try fe packet (data packet) (mkSt (mkLocals None 0) w) in
  let done := extract_file fe packet w in
  fst done = fst tried /\
  fst done <> Diverge /\
  Gdal.handles (gdal (snd done)) = Gdal.handles (gdal w) /\
  (forall h, vsi (self (snd tried)) = Some h ->
     Gdal.handles (gdal w) !! h = None /\
     is_Some (Gdal.handles (gdal (world (snd tried))) !! h) /\
     Gdal.handles (gdal (snd done)) !! h = None).
Proof.
  intros tried done. pose proof (extract_try_post fe packet w) as Hpost.
  unfold holds in Hpost. fold tried in Hpost.
  subst done. unfold extract_file, try_finally, try_except. fold tried.
  destruct tried as [r s]. cbn [fst snd] in *.
  destruct Hpost as [Hd [(Hv & Hg & e & ->) | (h & Hv & Hf & Ho)]].
  - (* no handle *)
    assert (forall s1, vsi (self s1) = vsi (self s) ->
              gdal (world s1) = gdal (world s) ->
              extract_finally (data packet) s1 = (Ok tt, s1)) as Hfin.
    { intros s1 E1 _. apply extract_finally_null. now rewrite E1. }
    destruct (is_Exception e).
    + unfold extract_except, bind, raise.
      cbn [in_world Log.error Log.emit modify world set_world].
      rewrite Hfin by reflexivity. cbn. rewrite Hg, Hv.
      repeat split; easy.
    + rewrite Hfin by reflexivity. cbn. rewrite Hg, Hv.
      repeat split; easy.
  - (* the handle [h] *)
    assert (forall s1, vsi (self s1) = vsi (self s) ->
              Gdal.handles (gdal (world s1)) = Gdal.handles (gdal (world s)) ->
              exists s', extract_finally (data packet) s1 = (Ok tt, s') /\
                         Gdal.handles (gdal (world s')) = Gdal.handles (gdal w))
      as Hfin.
    { intros s1 E1 E2. apply (extract_finally_opened _ _ h); auto.
      - now rewrite E1.
      - destruct Ho as [hv E]. exists hv. now rewrite E2. }
    assert (forall h', Some h = Some h' ->
              Gdal.handles (gdal w) !! h' = None /\
              is_Some (Gdal.handles (gdal (world s)) !! h')) as Hh.
    { intros h' [= <-]. split; [exact Hf|]. destruct Ho as [hv ->].
      rewrite lookup_insert_eq. eauto. }
    rewrite Hv.
    destruct r as [[]|e|]; [| |easy].
    + destruct (Hfin s eq_refl eq_refl) as (s' & -> & E').
      cbn. repeat split; try easy; try apply Hh; auto.
      rewrite E'. now apply Hh.
    + destruct (is_Exception e).
      * unfold extract_except, bind, raise.
        cbn [in_world Log.error Log.emit modify world set_world].
        edestruct Hfin as (s' & -> & E'); [| |]; [reflexivity..|].
        cbn. repeat split; try easy; try apply Hh; auto.
        rewrite E'. now apply Hh.
      * destruct (Hfin s eq_refl eq_refl) as (s' & -> & E').
        cbn. repeat split; try easy; try apply Hh; auto.
        rewrite E'. now apply Hh.
Qed.

End VsiExtract.

Section VsiExamples.

Import FileExtractor VsiFileExtractor Sample.

(** C7 on [Sample.vsi_world]. Writing to [out.xml] succeeds; writing to
    [nodir/out.xml] fails in [open] after the handle was opened, and the
    [OSError] reaches the caller; a path GDAL cannot open leaves no handle
    and the first seek raises. In all three no handle stays open. *)
Lemma VsiFileExtractor_extract_file_witness :
  let packet := packet_of (DStr vsi_path) in
  let good := mk "out.xml" true DEFAULT_BUFFER_SIZE in
  let bad := mk "nodir/out.xml" true DEFAULT_BUFFER_SIZE in
  let w := vsi_world in
  (fst (extract_file good packet w) = Ok tt /\
   fst (os.read_file "out.xml" (snd (extract_file good packet w)))
     = Ok "<xml/>" /\
   Gdal.handles (gdal (snd (extract_file good packet w))) = ∅) /\
  (fst (extract_file bad packet w) = Raise OSError /\
   vsi (self (snd (extract_try bad packet (data packet)
                     (mkSt (mkLocals None 0) w)))) = Some 0 /\
   Gdal.handles (gdal (snd (extract_file bad packet w))) !! 0 = None) /\
  (fst (extract_file good (packet_of (DStr "nowhere")) w) = Raise ValueError).
Proof.
  intros packet good bad w. split; [|split].
  - destruct (VsiFileExtractor_extract_file_reraises_and_closes good packet w)
      as (Hr & _ & Hh & _).
    rewrite Hr, Hh. repeat split; reflexivity.
  - destruct (VsiFileExtractor_extract_file_reraises_and_closes bad packet w)
      as (Hr & _ & _ & Hh).
    rewrite Hr. split; [reflexivity|]. split; [reflexivity|].
    now apply (Hh 0).
  - destruct (VsiFileExtractor_extract_file_reraises_and_closes good
                (packet_of (DStr "nowhere")) w) as (Hr & _).
    rewrite Hr. reflexivity.
Defined.

End VsiExamples.

(** ** The ETL driver *)

Section Driver.

Import ETL.
Context `{B : Builtins} `{L : ConfigParser.Lib} `{S : Setl}.

(** C1. [ETL.__init__] never raises: an exception raised while the
    configuration file is opened, substituted into or parsed is caught, the
    warning [Cannot read config file] is logged, and the object is built
    with the store as the parser left it. With arguments given and a file
    that cannot be opened, the store is the empty one. *)
Theorem ETL_init_catches_config_errors (options : Options)
    (args : option (list string)) (w : World) :
  let f := config_file options in
  let tried := init_try f args
                 (mkSt (mk ConfigParser.new) (add_log w (info_config_file f))) in
  (forall e, fst (init options args w) <> Raise e) /\
  init options args w =
    match fst tried with
    | Ok _ => (Ok (self (snd tried)), world (snd tried))
    | Raise _ => (Ok (self (snd tried)),
                  add_log (world (snd tried)) (warning_cannot_read f))
    | Diverge => (Diverge, world (snd tried))
    end /\
  (truthy_args args = true ->
   fst (os.read_file f w) = Raise OSError ->
   init options args w =
     (Ok (mk ConfigParser.new),
      add_log (add_log w (info_config_file f)) (warning_cannot_read f))).
Proof.
  intros f tried.
  assert (init options args w =
          match fst tried with
          | Ok _ => (Ok (self (snd tried)), world (snd tried))
          | Raise _ => (Ok (self (snd tried)),
                        add_log (world (snd tried)) (warning_cannot_read f))
          | Diverge => (Diverge, world (snd tried))
          end) as E.
  { unfold init, bind. cbn [Log.info Log.emit modify].
    unfold try_except_all. fold f. fold (info_config_file f). fold tried.
    clearbody tried. destruct tried as [[[]|e|] s]; reflexivity. }
  split; [|split; [exact E|]].
  - intros e. rewrite E. now destruct (fst tried).
  - intros Ha Hr. rewrite E.
    assert (tried = (Raise OSError,
                     mkSt (mk ConfigParser.new) (add_log w (info_config_file f))))
      as ->; [|reflexivity].
    subst tried. unfold init_try. rewrite Ha. unfold bind, in_world. cbn [world].
    assert (os.read_file f (add_log w (info_config_file f))
            = (Raise OSError, add_log w (info_config_file f))) as ->.
    { revert Hr. unfold os.read_file.
      change (os.node_at (add_log w _) f) with (os.node_at w f).
      now destruct (os.node_at w f) as [[|]|]. }
    reflexivity.
Qed.

End Driver.

Section DriverRun.

Import ETL.
Context `{L : ConfigParser.Lib} `{S : Setl}.

(** One round of the loop: build the chain, assemble it, run it. *)
Lemma run_chains_cons configdict chain_str rest :
  run_chains configdict (chain_str :: rest) =
  (let* chain := Chain_init (Str.strip chain_str) configdict in
   let* chain := Chain_assemble chain in
   Chain_run chain >>
   run_chains configdict rest).
Proof. reflexivity. Qed.

(** The entries are handled one after the other: those after a point are
    started only when those before it are done. *)
Lemma run_chains_app configdict before after w :
  run_chains configdict (before ++ after) w =
  (run_chains configdict before >> run_chains configdict after) w.
Proof.
  revert w. induction before as [|c before IH]; intros w; [reflexivity|].
  cbn [app run_chains]. unfold bind.
  destruct (Chain_init _ _ w) as [[chain|e|] w1]; try reflexivity.
  destruct (Chain_assemble chain w1) as [[chain'|e|] w2]; try reflexivity.
  destruct (Chain_run chain' w2) as [[[]|e|] w3]; try reflexivity.
  apply IH.
Qed.

(** With a non-empty [chains] value, [run] is the loop over the
    comma-separated entries between the two timer calls. *)
Lemma run_with_chains (self0 : t) (chains_str : string) (w : World) :
  ConfigParser.get (configdict self0) "etl" "chains" = Ok chains_str ->
  chains_str <> EmptyString ->
  run self0 w =
  (Log.info "START" [] >>
   let* t1 := startTimer "total ETL" in
   run_chains (configdict self0) (Str.split "," chains_str) >>
   endTimer t1 "total ETL" >>
   Log.info "ALL DONE" []) w.
Proof.
  intros Hg Hne. unfold run. rewrite Hg.
  destruct (String.eqb chains_str EmptyString) eqn:E.
  - now apply String.eqb_eq in E.
  - unfold bind, lift. cbn [Log.info Log.emit modify].
    destruct (startTimer _ _) as [[t1|e|] w1]; try reflexivity.
    now rewrite E.
Qed.

(** The lookup of [chains] fails with the error of [ConfigParser.get]. *)
Lemma run_get_raises (self0 : t) (e : exn) (w w1 : World) (t1 : Timer) :
  ConfigParser.get (configdict self0) "etl" "chains" = Raise e ->
  startTimer "total ETL" (add_log w (mkLog INFO "START" [])) = (Ok t1, w1) ->
  run self0 w = (Raise e, w1).
Proof.
  intros Hg Ht. unfold run, bind. cbn [Log.info Log.emit modify].
  now rewrite Ht, Hg.
Qed.

End DriverRun.

Section DriverExamples.

Import ETL Sample.

(** C1 as stated fails: with [missing.ini] not there, and with [note.txt]
    there but not parsable, the constructor returns an object whose store
    is empty. *)
Lemma ETL_init_continues_with_empty_store :
  let w := world_of tree in
  fst (os.read_file "missing.ini" w) = Raise OSError /\
  fst (init {| config_file := "missing.ini" |} (Some ["x"]) w)
    = Ok (mk ConfigParser.new) /\
  fst (init {| config_file := "missing.ini" |} None w)
    = Ok (mk ConfigParser.new) /\
  fst (ConfigParser.parse "6" "note.txt" ConfigParser.new)
    = Raise ParsingError /\
  fst (init {| config_file := "note.txt" |} None w)
    = Ok (mk ConfigParser.new).
Proof. vm_compute. repeat split. Qed.

(** C1 on [Sample.tree]. *)
Lemma ETL_init_catches_config_errors_witness :
  let w := world_of tree in
  let options := {| config_file := "missing.ini" |} in
  truthy_args (Some ["x"]) = true /\
  fst (os.read_file "missing.ini" w) = Raise OSError /\
  init options (Some ["x"]) w =
    (Ok (mk ConfigParser.new),
     add_log (add_log w (info_config_file "missing.ini"))
             (warning_cannot_read "missing.ini")).
Proof.
  intros w options. split; [reflexivity|]. split; [reflexivity|].
  destruct (ETL_init_catches_config_errors options (Some ["x"]) w)
    as (_ & _ & H).
  apply H; reflexivity.
Defined.

(** C8. When [chains] is absent, [run] does not raise [ValueError]:
    [ConfigParser.get] raises [NoOptionError] for a section without the
    option and [NoSectionError] for a store without the section, before
    the test of the value is reached. Only the empty value raises
    [ValueError]. *)
Theorem ETL_run_absent_chains_error :
  let w := world_of tree in
  ConfigParser.get no_chains "etl" "chains" = Raise NoOptionError /\
  fst (run (mk no_chains) w) = Raise NoOptionError /\
  ConfigParser.get ConfigParser.new "etl" "chains" = Raise NoSectionError /\
  fst (run (mk ConfigParser.new) w) = Raise NoSectionError /\
  fst (run (mk empty_chains) w) = Raise ValueError.
Proof. vm_compute. repeat split. Qed.

(** The entries of [in|out , in2|out2] are stripped and their chains
    built, assembled and run in the order listed. *)
Lemma ETL_run_two_chains :
  let w := world_of tree in
  fst (run (mk two_chains) w) = Ok tt /\
  map (fun r => (template r, log_args r)) (log (snd (run (mk two_chains) w))) =
    [("START", []);
     ("startTimer", [DStr "total ETL"]);
     ("Chain.__init__", [DStr "in|out"]);
     ("Chain.assemble", [DStr "in|out"]);
     ("Chain.run", [DStr "in|out"]);
     ("Chain.__init__", [DStr "in2|out2"]);
     ("Chain.assemble", [DStr "in2|out2"]);
     ("Chain.run", [DStr "in2|out2"]);
     ("endTimer", [DStr "total ETL"]);
     ("ALL DONE", [])].
Proof. vm_compute. repeat split. Qed.

End DriverExamples.

(** * Further properties of the code *)

(** ** What [wipe_dir] leaves alone *)

Section WipeDirFrame.

Import OS Tree ArchiveExpander.

Lemma get_entry_update_ne c c' h es :
  String.eqb c c' = false ->
  get_entry c' (update_entries c h es) = get_entry c' es.
Proof.
  intros Hne. induction es as [|[c0 x] es IH]; cbn.
  - destruct (h None); [|reflexivity]. cbn. now rewrite Hne.
  - destruct (String.eqb c0 c) eqn:E0.
    + apply String.eqb_eq in E0. subst c0. rewrite Hne.
      destruct (h (Some x)); [|reflexivity]. cbn. now rewrite Hne.
    + cbn. destruct (String.eqb c0 c'); [reflexivity|exact IH].
Qed.

Lemma update_entries_absent c h es :
  get_entry c es = None -> h None = None -> update_entries c h es = es.
Proof.
  intros Hg Hh. induction es as [|[c0 x] es IH]; cbn in *.
  - now rewrite Hh.
  - destruct (String.eqb c0 c); [discriminate|]. now rewrite IH.
Qed.

(** Rewriting below [p] does not show at a path apart from [p]. *)
Lemma lookup_update_apart p : forall q g root root',
  apart p q = true ->
  update p g (Some root) = Some root' ->
  lookup q root' = lookup q root.
Proof.
  induction p as [|c p IH]; intros q g root root' Ha Hu; [discriminate|].
  destruct q as [|c' q].
  { unfold apart in Ha. cbn in Ha. discriminate. }
  destruct root as [s|es].
  { cbn in Hu. now injection Hu as <-. }
  rewrite update_cons in Hu. injection Hu as <-. rewrite !lookup_cons.
  destruct (String.eqb c c') eqn:Ec.
  - apply String.eqb_eq in Ec. subst c'.
    assert (apart p q = true) as Ha'.
    { unfold apart in *. cbn in Ha. now rewrite String.eqb_refl in Ha. }
    assert (p <> []) as Hp by (intros ->; discriminate).
    destruct p as [|c1 p1]; [easy|].
    destruct (get_entry c es) as [ch|] eqn:Eg.
    + rewrite (update_entries_at _ _ _ _ Eg).
      destruct (update_cons_some c1 p1 g ch) as (ch' & Hch).
      rewrite Hch, (get_entry_update _ _ _ _ Eg).
      exact (IH q g ch ch' Ha' Hch).
    + rewrite update_entries_absent; [now rewrite Eg|exact Eg|reflexivity].
  - now rewrite (get_entry_update_ne _ _ _ _ Ec).
Qed.


Lemma lookup_del_apart p q root :
  apart p q = true -> lookup q (del p root) = lookup q root.
Proof.
  intros Ha. unfold del, update_root.
  destruct (update p (fun _ => None) (Some root)) as [r|] eqn:E;
    [|reflexivity].
  exact (lookup_update_apart p q _ root r Ha E).
Qed.

Lemma apart_not_empty p q : apart p q = true -> q <> [].
Proof.
  intros Ha ->. unfold apart in Ha. destruct p; cbn in Ha; discriminate.
Qed.

Lemma node_at_set_fs_apart w path other r :
  apart (resolve path) (resolve other) = true ->
  lookup (resolve other) r = lookup (resolve other) (fs w) ->
  os.node_at (set_fs w r) other = os.node_at w other.
Proof.
  intros Ha Hl. destruct other as [|a other]; [reflexivity|].
  unfold os.node_at. cbn [fs set_fs]. exact Hl.
Qed.




End WipeDirFrame.

(** ** Every call of [wipe_dir] removes something *)

Section WipeDirProgress.

Import OS Tree ArchiveExpander.


Lemma size_Dir_nil : size (Dir []) = 1.
Proof. reflexivity. Qed.




End WipeDirProgress.

(** ** [safe_filename] as a path component *)

Section SafeComponent.

Import Str.

Lemma sanitize_not_slash a : Ascii.eqb (sanitize a) slash = false.
Proof. destruct a as [[] [] [] [] [] [] [] []]; reflexivity. Qed.

Lemma sanitize_dot a : Ascii.eqb (sanitize a) "." = Ascii.eqb a ".".
Proof. destruct a as [[] [] [] [] [] [] [] []]; reflexivity. Qed.

Lemma re_sub_unsafe_no_slash s :
  forallb (fun a => negb (Ascii.eqb a slash)) (chars (re_sub_unsafe s)) = true.
Proof.
  induction s as [|a s IH]; [reflexivity|]. cbn.
  now rewrite sanitize_not_slash, IH.
Qed.

Lemma re_sub_unsafe_dots s :
  String.eqb (re_sub_unsafe s) "." = String.eqb s "." /\
  String.eqb (re_sub_unsafe s) ".." = String.eqb s "..".
Proof.
  destruct s as [|a [|b [|c s]]]; cbn; try (split; reflexivity).
  - rewrite sanitize_dot. split; [reflexivity|].
    now destruct (Ascii.eqb a ".").
  - rewrite !sanitize_dot. split; [now destruct (Ascii.eqb a ".")|].
    reflexivity.
  - rewrite !sanitize_dot. split.
    + now destruct (Ascii.eqb a ".").
    + now destruct (Ascii.eqb a "."), (Ascii.eqb b ".").
Qed.

(** X3. What [safe_filename] returns never holds a [/]: it is a name
    that can stand for one directory entry, except when it is empty, [.]
    or [..], and these three come out exactly for the inputs that are
    empty, [.] and [..]: dots are kept, so [..] passes through. *)
Theorem safe_filename_one_component (s : string) :
  let r := ArchiveExpander.safe_filename s in
  r = FileExtractor.safe_filename s /\
  forallb (fun a => negb (Ascii.eqb a slash)) (chars r) = true /\
  OS.valid_name r =
    negb (String.eqb s EmptyString || String.eqb s "." || String.eqb s "..") /\
  (r = ".." <-> s = "..").
Proof.
  cbv zeta. unfold ArchiveExpander.safe_filename, FileExtractor.safe_filename.
  split; [reflexivity|]. split; [apply re_sub_unsafe_no_slash|].
  destruct (re_sub_unsafe_dots s) as [H1 H2]. split.
  - unfold OS.valid_name. rewrite re_sub_unsafe_no_slash, H1, H2, andb_true_r.
    assert (String.eqb (re_sub_unsafe s) EmptyString = String.eqb s EmptyString)
      as -> by now destruct s.
    now destruct (String.eqb s EmptyString), (String.eqb s "."),
                 (String.eqb s "..").
  - rewrite <- !String.eqb_eq. now rewrite H2.
Qed.

End SafeComponent.

(** ** Removing one file *)

Section Unlink.

Import OS Tree.

Lemma unlinked_gone path w :
  wf_root (fs w) = true -> is_file (os.node_at (unlinked path w) path) = false.
Proof. apply target_deleted_gone. Qed.

Lemma unlinked_apart path other w :
  apart (resolve path) (resolve other) = true ->
  os.node_at (unlinked path w) other = os.node_at w other.
Proof.
  intros Ha. unfold unlinked.
  destruct (is_file (os.node_at w path)); [|reflexivity].
  apply (node_at_set_fs_apart w path); [exact Ha|].
  now apply lookup_del_apart.
Qed.


Lemma remove_file_run p w :
  ArchiveExpander.remove_file (DStr p) w = (Ok tt, unlinked p w).
Proof.
  unfold ArchiveExpander.remove_file, unlinked, bind.
  cbn [os.path.isfile_obj os.path.isfile os.remove_obj].
  unfold os.remove.
  destruct (os.node_at w p) as [[s|es]|] eqn:Hn; cbn [is_file];
    try reflexivity.
  unfold ret. now rewrite Hn.
Qed.




End Unlink.

Section UnlinkExamples.

Import OS Tree Sample.


End UnlinkExamples.

(** ** [ArchiveExpander]: the steps of [invoke] and the cleanup *)

Section ArchiveExpanderSteps.

Import OS Tree ArchiveExpander.
Context `{B : Builtins}.

Lemma is_None_false d : d <> DNone -> is_None d = false.
Proof. now destruct d. Qed.

(** [invoke] up to the end of the wipe. *)
Lemma invoke_wipe_raises cls packet s p e w1 :
  data packet <> DNone ->
  output_path (self s) (Some packet) = Ok p ->
  wipe_dir p (world s) = (Raise e, w1) ->
  invoke cls packet s = (Raise e, mkSt (self s) w1).
Proof.
  intros Hd Hp Hw. unfold invoke. rewrite (is_None_false _ Hd).
  unfold bind at 1. unfold get_self at 1.
  unfold bind at 1. unfold lift at 1. rewrite Hp.
  unfold bind at 1. now rewrite (in_world_run _ _ _ _ Hw).
Qed.

(** [invoke] from the expansion on. *)
Lemma invoke_steps cls packet s p w1 r w2 :
  data packet <> DNone ->
  output_path (self s) (Some packet) = Ok p ->
  wipe_dir p (world s) = (Ok tt, w1) ->
  m_expand_archive cls (data packet) p w1 = (r, w2) ->
  invoke cls packet s =
    let self1 := set_input_archive_file (self s) (data packet) in
    match r with
    | Ok _ =>
        match os.node_at w2 p with
        | Some (Dir []) =>
            (Ok (set_data packet DNone),
             mkSt self1 (add_log w2 (warn_no_files p)))
        | Some (Dir (e :: es)) =>
            (Ok (set_data packet (DStr p)),
             mkSt self1 (add_log w2 (info_expanded (data packet) p
                                       (length (map fst (e :: es))))))
        | _ => (Raise OSError, mkSt self1 w2)
        end
    | Raise e => (Raise e, mkSt self1 w2)
    | Diverge => (Diverge, mkSt self1 w2)
    end.
Proof.
  intros Hd Hp Hw He. unfold invoke. rewrite (is_None_false _ Hd).
  unfold bind at 1. unfold get_self at 1.
  unfold bind at 1. unfold lift at 1. rewrite Hp.
  unfold bind at 1. rewrite (in_world_run _ _ _ _ Hw).
  unfold bind at 1. unfold put_self at 1.
  unfold bind at 1. unfold get_self at 1.
  unfold set_self, set_world.
  cbn [self world input_archive_file set_input_archive_file].
  unfold bind at 1.
  rewrite (in_world_run (m_expand_archive cls _ p)
             (mkSt (set_input_archive_file (self s) (data packet)) w1) _ _ He).
  unfold set_world. cbn [self world]. cbv zeta.
  destruct r as [[]|e|]; try reflexivity.
  unfold bind at 1. unfold in_world at 1, os.listdir at 1. cbn [world].
  destruct (os.node_at w2 p) as [[c|[|e es]]|] eqn:Hn; try reflexivity.
  cbn [map fst]. unfold bind, in_world, os.listdir, set_world.
  cbn [world self]. rewrite Hn. reflexivity.
Qed.

(** A call of [invoke] that returns has stored the archive. *)
Lemma invoke_returns_self cls packet s packet' s' :
  data packet <> DNone ->
  invoke cls packet s = (Ok packet', s') ->
  self s' = set_input_archive_file (self s) (data packet).
Proof.
  intros Hd Hi.
  destruct (output_path (self s) (Some packet)) as [p|e|] eqn:Hp.
  2,3: unfold invoke in Hi; rewrite (is_None_false _ Hd) in Hi;
       unfold bind, get_self, lift in Hi; rewrite Hp in Hi; discriminate.
  destruct (wipe_dir p (world s)) as [[[]|e|] w1] eqn:Hw.
  2: now rewrite (invoke_wipe_raises cls _ _ _ _ _ Hd Hp Hw) in Hi.
  2:{ unfold invoke in Hi. rewrite (is_None_false _ Hd) in Hi.
      unfold bind at 1 in Hi. unfold get_self at 1 in Hi.
      unfold bind at 1 in Hi. unfold lift at 1 in Hi. rewrite Hp in Hi.
      unfold bind at 1 in Hi. rewrite (in_world_run _ _ _ _ Hw) in Hi.
      discriminate. }
  destruct (m_expand_archive cls (data packet) p w1) as [r w2] eqn:He.
  rewrite (invoke_steps cls _ _ _ _ _ _ Hd Hp Hw He) in Hi. cbv zeta in Hi.
  destruct r as [[]|e|]; try discriminate.
  destruct (os.node_at w2 p) as [[c|[|e es]]|]; try discriminate;
    now injection Hi as _ <-.
Qed.

(** X6. After a call of [invoke] that returned for a packet naming the
    archive [archive], [after_chain_invoke] with [remove_input_file] on and
    [clear_target_dir] off returns [True] for every last packet, [None]
    included, and has unlinked the archive when it is a regular file: on a
    well-formed file system no regular file is at [archive] afterwards. *)
Theorem after_chain_invoke_removes_archive (cls : Methods) (packet : Packet)
    (archive : string) (s s' : St t) (packet' : Packet)
    (last : option Packet) :
  data packet = DStr archive ->
  remove_input_file (self s) = true ->
  clear_target_dir (self s) = false ->
  invoke cls packet s = (Ok packet', s') ->
  after_chain_invoke last s' =
    (Ok (VBool true), mkSt (self s') (unlinked archive (world s'))) /\
  (wf_root (fs (world s')) = true ->
   is_file (os.node_at (unlinked archive (world s')) archive) = false).
Proof.
  intros Hd Hr Hc Hi. split; [|apply unlinked_gone].
  assert (data packet <> DNone) as Hne by (rewrite Hd; discriminate).
  pose proof (invoke_returns_self cls _ _ _ _ Hne Hi) as Hs.
  destruct s' as [self1 w1]. cbn [self world] in *. subst self1.
  unfold after_chain_invoke. unfold bind at 1. unfold get_self at 1.
  cbn [self remove_input_file clear_target_dir input_archive_file
       set_input_archive_file].
  rewrite Hr, Hc, Hd. unfold bind at 1.
  rewrite (in_world_run (remove_file (DStr archive)) (mkSt _ w1) _ _
             (remove_file_run archive w1)).
  reflexivity.
Qed.

End ArchiveExpanderSteps.

Section ZipArchiveExpanderEdges.

Import OS Tree ArchiveExpander.
Context `{B : Builtins} `{ZL : ZipLib}.

Lemma wipe_dir_not_dir p w :
  is_dir (os.node_at w p) = false -> wipe_dir p w = (Ok tt, w).
Proof.
  intros H. unfold wipe_dir. cbn [wipe_dir_fuel]. unfold bind, os.path.isdir.
  now rewrite H.
Qed.

Lemma expand_archive_not_zip name output_path w :
  Str.endswith (Str.lower name) "zip" = false ->
  ZipArchiveExpander.expand_archive (DStr name) output_path w =
    (Ok tt, add_log w (mkLog WARN "No zipfile passed: {}" [DStr name])).
Proof. intros H. unfold ZipArchiveExpander.expand_archive. now rewrite H. Qed.

(** X7. [ZipArchiveExpander.invoke] on a packet whose name does not end in
    [zip] (in any case of letters) never opens an archive, yet it has
    wiped the target directory first: with a well-formed file system and
    a target directory that holds regular files only, the directory ends
    up empty, two warnings are logged and the packet comes back as a Skip;
    [self.input_archive_file] holds the name all the same. *)
Theorem ZipArchiveExpander_not_zip_wipes_and_skips (packet : Packet)
    (name : string) (s : St t) (p : string) (es : list (string * node)) :
  data packet = DStr name ->
  Str.endswith (Str.lower name) "zip" = false ->
  output_path (self s) (Some packet) = Ok p ->
  wf_node (fs (world s)) = true ->
  os.node_at (world s) p = Some (Dir es) ->
  forallb is_file_entry es = true ->
  invoke ZipArchiveExpander.methods packet s =
    (Ok (set_data packet DNone),
     mkSt (set_input_archive_file (self s) (DStr name))
          (add_log
             (add_log (set_fs (world s) (put (resolve p) (Dir []) (fs (world s))))
                      (mkLog WARN "No zipfile passed: {}" [DStr name]))
             (warn_no_files p))).
Proof.
  intros Hd Hz Hp Hwf Hn Hfiles.
  assert (data packet <> DNone) as Hne by (rewrite Hd; discriminate).
  pose proof (wipe_dir_tree _ _ _ Hwf Hn) as Hw.
  rewrite wipe_tree_Dir, (wipe_entries_files _ Hfiles) in Hw. cbn in Hw.
  set (w1 := set_fs (world s) (put (resolve p) (Dir []) (fs (world s)))) in *.
  assert (m_expand_archive ZipArchiveExpander.methods (data packet) p w1 =
          (Ok tt, add_log w1 (mkLog WARN "No zipfile passed: {}" [DStr name])))
    as He by (rewrite Hd; now apply expand_archive_not_zip).
  rewrite (invoke_steps _ _ _ _ _ _ _ Hne Hp Hw He). cbv zeta.
  destruct (node_at_some _ _ _ Hn) as [Hpne Hl].
  change (os.node_at (add_log w1 ?r) p) with (os.node_at w1 p).
  rewrite (node_at_eq _ _ Hpne). subst w1. cbn [fs set_fs].
  rewrite (lookup_put _ _ _ _ Hl). now rewrite Hd.
Qed.

(** X8. When the formatted output path names no directory (nothing, or a
    regular file) and the packet's name does not end in [zip], nothing
    creates the directory and [ZipArchiveExpander.invoke] does not skip:
    [os.listdir] raises [OSError], after [self.input_archive_file] was
    set and the warning was logged; the file system is as before. *)
Theorem ZipArchiveExpander_not_zip_missing_dir_raises (packet : Packet)
    (name : string) (s : St t) (p : string) :
  data packet = DStr name ->
  Str.endswith (Str.lower name) "zip" = false ->
  output_path (self s) (Some packet) = Ok p ->
  is_dir (os.node_at (world s) p) = false ->
  invoke ZipArchiveExpander.methods packet s =
    (Raise OSError,
     mkSt (set_input_archive_file (self s) (DStr name))
          (add_log (world s) (mkLog WARN "No zipfile passed: {}" [DStr name]))).
Proof.
  intros Hd Hz Hp Hn.
  assert (data packet <> DNone) as Hne by (rewrite Hd; discriminate).
  pose proof (wipe_dir_not_dir _ _ Hn) as Hw.
  assert (m_expand_archive ZipArchiveExpander.methods (data packet) p (world s) =
          (Ok tt, add_log (world s)
                    (mkLog WARN "No zipfile passed: {}" [DStr name])))
    as He by (rewrite Hd; now apply expand_archive_not_zip).
  rewrite (invoke_steps _ _ _ _ _ _ _ Hne Hp Hw He). cbv zeta.
  change (os.node_at (add_log (world s) ?r) p) with (os.node_at (world s) p).
  rewrite Hd. now destruct (os.node_at (world s) p) as [[c|es]|].
Qed.

End ZipArchiveExpanderEdges.

Section ArchiveExpanderStepsExamples.

Import OS Tree ArchiveExpander Sample.

(** X6 on [Sample.tree]: [in.zip] is expanded into [files] and removed by
    the cleanup. *)
Lemma after_chain_invoke_removes_archive_witness :
  let cls := ZipArchiveExpander.methods in
  let s := mkSt (init "files" true false) (world_of tree) in
  let packet := packet_of (DStr "in.zip") in
  let s' := snd (invoke cls packet s) in
  fst (invoke cls packet s) = Ok (set_data packet (DStr "files")) /\
  fst (after_chain_invoke None s') = Ok (VBool true) /\
  is_file (os.node_at (world (snd (after_chain_invoke None s'))) "in.zip")
    = false.
Proof.
  intros cls s packet s'. split; [reflexivity|].
  destruct (after_chain_invoke_removes_archive cls packet "in.zip" s s'
              (set_data packet (DStr "files")) None)
    as [Ha Hg]; try reflexivity.
  rewrite Ha. split; [reflexivity|]. cbn [snd world]. now apply Hg.
Defined.

(** X7 on [Sample.tree]: [note.txt] is no archive, [files] is emptied. *)
Lemma ZipArchiveExpander_not_zip_wipes_and_skips_witness :
  let s := mkSt (init "files" false true) (world_of tree) in
  let packet := packet_of (DStr "note.txt") in
  fst (invoke ZipArchiveExpander.methods packet s) = Ok (set_data packet DNone) /\
  fst (os.listdir "files"
         (world (snd (invoke ZipArchiveExpander.methods packet s)))) = Ok [] /\
  is_file (os.node_at (world (snd (invoke ZipArchiveExpander.methods packet s)))
             "note.txt") = true.
Proof.
  intros s packet.
  rewrite (ZipArchiveExpander_not_zip_wipes_and_skips packet "note.txt" s
             "files" [("p", File "4"); ("q", File "5")]);
    try reflexivity.
  repeat split; reflexivity.
Defined.

(** X8 on [Sample.tree]: the target [nowhere] does not exist. *)
Lemma ZipArchiveExpander_not_zip_missing_dir_raises_witness :
  let s := mkSt (init "nowhere" false true) (world_of tree) in
  let packet := packet_of (DStr "note.txt") in
  fst (invoke ZipArchiveExpander.methods packet s) = Raise OSError /\
  fs (world (snd (invoke ZipArchiveExpander.methods packet s))) = tree.
Proof.
  intros s packet.
  rewrite (ZipArchiveExpander_not_zip_missing_dir_raises packet "note.txt" s
             "nowhere"); try reflexivity.
  split; reflexivity.
Defined.

End ArchiveExpanderStepsExamples.

(** ** Copying in chunks *)

Section Chunks.

Import OS Tree FileExtractor.

Lemma string_append_assoc (a b c : string) :
  String.append (String.append a b) c = String.append a (String.append b c).
Proof.
  induction a as [|x a IH]; [reflexivity|].
  rewrite !append_cons. now rewrite IH.
Qed.

Lemma string_append_nil_r (a : string) : String.append a EmptyString = a.
Proof.
  induction a as [|x a IH]; [reflexivity|]. rewrite append_cons. now rewrite IH.
Qed.

Lemma substring_zero s : forall pos, String.substring pos 0 s = EmptyString.
Proof.
  induction s as [|a s IH]; intros [|pos]; try reflexivity. cbn. apply IH.
Qed.

Lemma substring_whole s : String.substring 0 (String.length s) s = s.
Proof. induction s as [|a s IH]; [reflexivity|]. cbn. now rewrite IH. Qed.

Lemma drop_zero s : drop 0 s = s.
Proof. unfold drop. rewrite Nat.sub_0_r. apply substring_whole. Qed.

Lemma drop_cons a s pos : drop (S pos) (String a s) = drop pos s.
Proof. reflexivity. Qed.

Lemma drop_beyond s : forall pos, String.length s <= pos -> drop pos s = EmptyString.
Proof.
  intros pos H. unfold drop.
  replace (String.length s - pos) with 0 by lia. apply substring_zero.
Qed.

(** A chunk and what follows it make up what was left. *)
Lemma chunk_then_rest s : forall pos n,
  String.append (String.substring pos n s)
                (drop (pos + String.length (String.substring pos n s)) s)
  = drop pos s.
Proof.
  induction s as [|a s IH]; intros pos n.
  - destruct pos, n; reflexivity.
  - destruct pos as [|pos].
    + destruct n as [|n]; [reflexivity|].
      change (String.substring 0 (S n) (String a s))
        with (String a (String.substring 0 n s)).
      rewrite append_cons. cbn [String.length Nat.add].
      rewrite drop_cons, drop_zero. f_equal.
      specialize (IH 0 n). cbn [Nat.add] in IH. now rewrite IH, drop_zero.
    + change (String.substring (S pos) n (String a s))
        with (String.substring pos n s).
      cbn [Nat.add]. rewrite !drop_cons. apply IH.
Qed.

Lemma substring_not_empty s : forall pos n,
  pos < String.length s -> 0 < n ->
  String.substring pos n s <> EmptyString.
Proof.
  induction s as [|a s IH]; intros pos n Hp Hn; [cbn in Hp; lia|].
  destruct pos as [|pos].
  - destruct n; [lia|]. discriminate.
  - cbn in Hp. apply (IH pos n); lia.
Qed.

Lemma get_entry_put c x es :
  get_entry c (update_entries c (fun _ => Some x) es) = Some x.
Proof.
  induction es as [|[c' y] es IH]; cbn.
  - now rewrite String.eqb_refl.
  - destruct (String.eqb c' c) eqn:E; cbn; rewrite E; [reflexivity|exact IH].
Qed.

(** A file put into an existing directory is found there. *)
Lemma lookup_put_new p x root :
  p <> [] -> is_dir (lookup (removelast p) root) = true ->
  lookup p (put p x root) = Some x.
Proof.
  intros Hp Hd. destruct (lookup (removelast p) root) as [[s|es]|] eqn:Hl;
    try discriminate.
  rewrite (app_removelast_last EmptyString Hp) at 1 2.
  set (q := removelast p) in *. set (c := List.last p EmptyString).
  unfold put, update_root. rewrite update_app, (update_at _ _ _ _ Hl).
  destruct (update_some q (Dir (update_entries c (fun _ => Some x) es))
              _ root Hl) as (r & Hu & Hr).
  cbn [update]. rewrite Hu, lookup_app, Hr. cbn [lookup].
  now rewrite get_entry_put.
Qed.

(** What [open(path, 'wb')] leaves when it succeeds. *)
Lemma open_wb_ok path w f w2 :
  os.open_wb path w = (Ok f, w2) ->
  f = path /\ path <> EmptyString /\
  w2 = written path EmptyString w /\
  os.node_at w2 path = Some (File EmptyString).
Proof.
  unfold os.open_wb. intros H.
  destruct (resolve path) as [|c p] eqn:Ep; [discriminate|].
  assert (is_dir (lookup (removelast (c :: p)) (fs w)) = true /\
          f = path /\ w2 = set_fs w (put (c :: p) (File EmptyString) (fs w)))
    as (Hd & -> & ->).
  { destruct (os.node_at w path) as [[s|es]|]; try discriminate;
      destruct (is_dir _); try discriminate; now injection H as <- <-. }
  assert (path <> EmptyString) as Hne by (intros ->; discriminate).
  split; [reflexivity|]. split; [exact Hne|]. split.
  - unfold written. now rewrite Ep.
  - rewrite (node_at_eq _ _ Hne), Ep. cbn [fs set_fs].
    now apply lookup_put_new.
Qed.

Lemma written_same f c w :
  os.node_at w f = Some (File c) -> written f c w = w.
Proof.
  intros H. destruct (node_at_some _ _ _ H) as [_ Hl]. unfold written.
  now rewrite (put_same _ _ _ Hl), set_fs_same.
Qed.

Lemma written_written f c c' a w :
  os.node_at w f = Some a -> written f c' (written f c w) = written f c' w.
Proof.
  intros H. destruct (node_at_some _ _ _ H) as [_ Hl]. unfold written.
  cbn [fs set_fs]. rewrite set_fs_set_fs. now rewrite (put_put _ _ _ _ _ Hl).
Qed.

Lemma node_at_written f c a w :
  os.node_at w f = Some a -> os.node_at (written f c w) f = Some (File c).
Proof.
  intros H. destruct (node_at_some _ _ _ H) as [Hne Hl].
  rewrite (node_at_eq _ _ Hne). unfold written. cbn [fs set_fs].
  now rewrite (lookup_put _ _ _ _ Hl).
Qed.

Lemma write_run f buffer c w :
  os.node_at w f = Some (File c) ->
  os.write f buffer w = (Ok tt, written f (String.append c buffer) w).
Proof. intros H. unfold os.write. now rewrite H. Qed.

(** The copy loop appends all that is left of [content], whatever the
    size of the chunks, as long as it is not zero. *)
Lemma copy_loop_copies content size f fuel : forall pos c0 w,
  size <> 0%Z ->
  os.node_at w f = Some (File c0) ->
  String.length content - pos < fuel ->
  copy_loop fuel content pos size f w =
    (Ok tt, written f (String.append c0 (drop pos content)) w).
Proof.
  induction fuel as [|k IH]; intros pos c0 w Hs Hf Hlt; [lia|].
  cbn [copy_loop].
  set (n := if (size <? 0)%Z then String.length content else Z.to_nat size).
  pose proof (chunk_then_rest content pos n) as Hsplit.
  pose proof (substring_length_le content pos n) as Hlen.
  destruct (String.substring pos n content) as [|a buffer] eqn:Eb.
  - change (String.eqb EmptyString EmptyString) with true. cbv iota.
    assert (String.length content <= pos) as Hend.
    { destruct (Nat.lt_ge_cases pos (String.length content)) as [Hp|Hp];
        [|exact Hp].
      exfalso. apply (substring_not_empty content pos n Hp); [|exact Eb].
      subst n. destruct (Z.ltb_spec size 0); lia. }
    rewrite (drop_beyond _ _ Hend), string_append_nil_r.
    now rewrite (written_same _ _ _ Hf).
  - change (String.eqb (String a buffer) EmptyString) with false. cbv iota.
    unfold bind. rewrite (write_run _ _ _ _ Hf).
    rewrite (IH _ (String.append c0 (String a buffer))); [| exact Hs | |].
    + rewrite (written_written _ _ _ _ _ Hf), string_append_assoc.
      now rewrite Hsplit.
    + now apply (node_at_written _ _ _ _ Hf).
    + cbn [String.length] in *. lia.
Qed.

End Chunks.

(** ** [ZipFileExtractor] *)

Section ZipExtract.

Import OS Tree FileExtractor.
Context `{B : Builtins} `{ZL : ZipLib}.

(** X10. [ZipFileExtractor.invoke] on a packet it cannot use. A [str]
    payload, or a dict without [file_path] under a static output path,
    makes the extraction raise ([TypeError], [KeyError]) only after the
    file found at [file_path] has been unlinked: the old output is lost
    although nothing was extracted. A dict without [name] under a dynamic
    output path raises [KeyError] in [output_path], before anything is
    touched. *)
Theorem ZipFileExtractor_invoke_unusable_packet (self0 : t)
    (packet : Packet) (w : World) :
  (forall x, data packet = DStr x ->
     invoke ZipFileExtractor.methods self0 packet w =
       (Raise TypeError, unlinked (file_path self0) w)) /\
  (forall d, data packet = DDict d -> d !! "file_path" = None ->
     Str.contains "%s" (file_path self0) = false ->
     invoke ZipFileExtractor.methods self0 packet w =
       (Raise KeyError, unlinked (file_path self0) w)) /\
  (forall d, data packet = DDict d -> d !! "name" = None ->
     Str.contains "%s" (file_path self0) = true ->
     invoke ZipFileExtractor.methods self0 packet w = (Raise KeyError, w)).
Proof.
  split; [|split].
  - intros x Hd.
    apply (invoke_with_data ZipFileExtractor.methods self0 packet
             (file_path self0) w (Raise TypeError)).
    + rewrite Hd. discriminate.
    + cbn. unfold ZipFileExtractor.output_path. cbn. now rewrite Hd.
    + cbn. unfold ZipFileExtractor.extract_file, bind, lift. now rewrite Hd.
  - intros d Hd Hf Hs.
    apply (invoke_with_data ZipFileExtractor.methods self0 packet
             (file_path self0) w (Raise KeyError)).
    + rewrite Hd. discriminate.
    + cbn. unfold ZipFileExtractor.output_path. cbn. now rewrite Hd, Hs.
    + cbn. unfold ZipFileExtractor.extract_file, bind, lift.
      rewrite Hd. cbn. now rewrite Hf.
  - intros d Hd Hn Hs. unfold invoke. rewrite Hd. cbn [is_None].
    unfold bind at 1. unfold delete_target_file, bind, lift. cbn.
    unfold ZipFileExtractor.output_path. cbn. rewrite Hd, Hs. cbn.
    now rewrite Hn.
Qed.

(** The extraction up to the copy loop. *)
Lemma zip_extract_file_steps self0 packet d archive name z out f content
    w w1 w2 :
  data packet = DDict d ->
  d !! "file_path" = Some archive -> d !! "name" = Some name ->
  ZipFile archive w = (Ok z, w1) ->
  ZipFileExtractor.output_path self0 (Some packet) = Ok out ->
  os.open_wb out w1 = (Ok f, w2) ->
  zopen z name w2 = (Ok content, w2) ->
  ZipFileExtractor.extract_file self0 packet w =
    copy_loop (S (String.length content)) content 0 (buffer_size self0) out w2.
Proof.
  intros Hd Hf Hn Hz Hp Ho Hm.
  destruct (open_wb_ok _ _ _ _ Ho) as (-> & _).
  unfold ZipFileExtractor.extract_file.
  rewrite Hd. cbn [subscript]. rewrite Hf, Hn, Hp.
  unfold bind, lift. rewrite Hz, Ho, Hm. reflexivity.
Qed.

(** X11. [ZipFileExtractor.extract_file], for a dict packet naming an
    archive that opens and a member that can be read, with an output file
    that can be created: for every [buffer_size] other than zero, positive
    (chunks) or negative (one read), the call returns and the output file
    holds the bytes of the member, all of them and in order. *)
Theorem ZipFileExtractor_extract_file_copies (self0 : t) (packet : Packet)
    (d : gmap string string) (archive name : string) (z : Archive)
    (out f content : string) (w w1 w2 : World) :
  data packet = DDict d ->
  d !! "file_path" = Some archive -> d !! "name" = Some name ->
  ZipFile archive w = (Ok z, w1) ->
  ZipFileExtractor.output_path self0 (Some packet) = Ok out ->
  os.open_wb out w1 = (Ok f, w2) ->
  zopen z name w2 = (Ok content, w2) ->
  buffer_size self0 <> 0%Z ->
  ZipFileExtractor.extract_file self0 packet w =
    (Ok tt, written out content w2) /\
  os.read_file out (written out content w2) =
    (Ok content, written out content w2).
Proof.
  intros Hd Hf Hn Hz Hp Ho Hm Hb.
  rewrite (zip_extract_file_steps _ _ _ _ _ _ _ _ _ _ _ _ Hd Hf Hn Hz Hp Ho Hm).
  destruct (open_wb_ok _ _ _ _ Ho) as (_ & _ & _ & Hat).
  rewrite (copy_loop_copies content _ out _ 0 EmptyString w2 Hb Hat)
    by (cbn; lia).
  rewrite drop_zero. change (String.append EmptyString content) with content.
  split; [reflexivity|].
  unfold os.read_file. now rewrite (node_at_written _ _ _ _ Hat).
Qed.

(** X12. With [buffer_size] zero the first read gives nothing and the
    loop is left at once: the call returns normally and the output file,
    already created, stays empty, whatever the member holds. *)
Theorem ZipFileExtractor_extract_file_zero_buffer (self0 : t)
    (packet : Packet) (d : gmap string string) (archive name : string)
    (z : Archive) (out f content : string) (w w1 w2 : World) :
  data packet = DDict d ->
  d !! "file_path" = Some archive -> d !! "name" = Some name ->
  ZipFile archive w = (Ok z, w1) ->
  ZipFileExtractor.output_path self0 (Some packet) = Ok out ->
  os.open_wb out w1 = (Ok f, w2) ->
  zopen z name w2 = (Ok content, w2) ->
  buffer_size self0 = 0%Z ->
  ZipFileExtractor.extract_file self0 packet w = (Ok tt, w2) /\
  os.read_file out w2 = (Ok EmptyString, w2).
Proof.
  intros Hd Hf Hn Hz Hp Ho Hm Hb.
  rewrite (zip_extract_file_steps _ _ _ _ _ _ _ _ _ _ _ _ Hd Hf Hn Hz Hp Ho Hm).
  destruct (open_wb_ok _ _ _ _ Ho) as (_ & _ & _ & Hat).
  rewrite Hb. cbn [copy_loop Z.ltb Z.compare Z.to_nat].
  rewrite substring_zero. split; [reflexivity|].
  unfold os.read_file. now rewrite Hat.
Qed.

End ZipExtract.

Section ZipExtractExamples.

Import OS Tree FileExtractor Sample.

(** X10 on [Sample.tree]: a [str] payload costs [note.txt]. *)
Lemma ZipFileExtractor_invoke_unusable_packet_witness :
  let self0 := mk "note.txt" true DEFAULT_BUFFER_SIZE in
  let w := world_of tree in
  fst (invoke ZipFileExtractor.methods self0 (packet_of (DStr "in.zip")) w)
    = Raise TypeError /\
  is_file (os.node_at
             (snd (invoke ZipFileExtractor.methods self0
                     (packet_of (DStr "in.zip")) w)) "note.txt") = false /\
  invoke ZipFileExtractor.methods (mk "out_%s" true DEFAULT_BUFFER_SIZE)
    (packet_of (DDict (<["file_path" := "in.zip"]> ∅))) w = (Raise KeyError, w).
Proof.
  intros self0 w.
  destruct (ZipFileExtractor_invoke_unusable_packet self0
              (packet_of (DStr "in.zip")) w) as (H1 & _).
  destruct (ZipFileExtractor_invoke_unusable_packet
              (mk "out_%s" true DEFAULT_BUFFER_SIZE)
              (packet_of (DDict (<["file_path" := "in.zip"]> ∅))) w)
    as (_ & _ & H3).
  rewrite (H1 "in.zip" eq_refl). split; [reflexivity|]. split; [reflexivity|].
  apply (H3 (<["file_path" := "in.zip"]> ∅)); reflexivity.
Defined.

(** X11 on [Sample.tree]: chunks of two bytes give [hello]. *)
Lemma ZipFileExtractor_extract_file_copies_witness :
  let self0 := mk "out.txt" true 2 in
  let w := world_of tree in
  fst (ZipFileExtractor.extract_file self0 member_packet w) = Ok tt /\
  fst (os.read_file "out.txt"
         (snd (ZipFileExtractor.extract_file self0 member_packet w)))
    = Ok "hello".
Proof.
  intros self0 w.
  destruct (ZipFileExtractor_extract_file_copies (ZL := ziplib) self0 member_packet
              (<["file_path" := "in.zip"]> (<["name" := "member.txt"]> ∅))
              "in.zip" "member.txt" ("hello" : @Archive ziplib)
              "out.txt" "out.txt" "hello"
              w w (written "out.txt" EmptyString w)) as [He Hr];
    try reflexivity; try discriminate.
  rewrite He. cbn [fst snd]. now rewrite Hr.
Defined.

(** X12 on [Sample.tree]: with a buffer of zero bytes [out.txt] is empty. *)
Lemma ZipFileExtractor_extract_file_zero_buffer_witness :
  let self0 := mk "out.txt" true 0 in
  let w := world_of tree in
  fst (ZipFileExtractor.extract_file self0 member_packet w) = Ok tt /\
  fst (os.read_file "out.txt"
         (snd (ZipFileExtractor.extract_file self0 member_packet w)))
    = Ok EmptyString.
Proof.
  intros self0 w.
  destruct (ZipFileExtractor_extract_file_zero_buffer (ZL := ziplib) self0 member_packet
              (<["file_path" := "in.zip"]> (<["name" := "member.txt"]> ∅))
              "in.zip" "member.txt" ("hello" : @Archive ziplib)
              "out.txt" "out.txt" "hello"
              w w (written "out.txt" EmptyString w)) as [He Hr];
    try reflexivity.
  rewrite He. cbn [fst snd]. now rewrite Hr.
Defined.

End ZipExtractExamples.

(** ** [VsiFileExtractor]: the bytes copied *)

Section VsiCopy.

Import OS Tree FileExtractor VsiFileExtractor.
Context `{B : Builtins}.

Lemma node_at_read_to h content pos w f :
  os.node_at (read_to h content pos w) f = os.node_at w f.
Proof. reflexivity. Qed.

Lemma read_to_read_to h content pos pos' w :
  read_to h content pos' (read_to h content pos w) = read_to h content pos' w.
Proof.
  unfold read_to, set_gdal. cbn [fs log gdal Gdal.vsi_files Gdal.handles].
  now rewrite insert_insert_eq.
Qed.

Lemma read_to_written h content pos f c w :
  read_to h content pos (written f c w) = written f c (read_to h content pos w).
Proof. reflexivity. Qed.

Lemma VSIFReadL_run h content pos size count w :
  Gdal.handles (gdal w) !! h = Some (Gdal.mkHandle content pos) ->
  gdal.VSIFReadL size count (Some h) w =
    let buffer := String.substring pos (Z.to_nat (size * count)) content in
    (Ok buffer, read_to h content (pos + String.length buffer) w).
Proof.
  intros Hh. unfold gdal.VSIFReadL, bind, gdal.get_handle. now rewrite Hh.
Qed.

(** The read loop appends all that is left of [content], whatever the
    size of the reads, as long as it is positive. *)
Lemma read_loop_copies content read_size f h fuel : forall pos c0 w,
  String.length content <= pos \/ (0 < read_size)%Z ->
  os.node_at w f = Some (File c0) ->
  Gdal.handles (gdal w) !! h = Some (Gdal.mkHandle content pos) ->
  pos <= String.length content ->
  String.length content - pos < fuel ->
  read_loop fuel read_size (Some h) f w =
    (Ok tt, read_to h content (String.length content)
              (written f (String.append c0 (drop pos content)) w)).
Proof.
  induction fuel as [|k IH]; intros pos c0 w Hs Hf Hh Hle Hlt; [lia|].
  cbn [read_loop]. unfold bind at 1. rewrite (VSIFReadL_run _ _ _ _ _ _ Hh).
  cbv zeta. set (n := Z.to_nat (1 * read_size)).
  pose proof (chunk_then_rest content pos n) as Hsplit.
  pose proof (substring_length_le content pos n) as Hlen.
  destruct (String.substring pos n content) as [|a buffer] eqn:Eb.
  - change (String.eqb EmptyString EmptyString) with true. cbv iota.
    assert (pos = String.length content) as ->.
    { destruct (Nat.lt_ge_cases pos (String.length content)) as [Hp|Hp];
        [|lia].
      exfalso. apply (substring_not_empty content pos n Hp); [|exact Eb].
      subst n. lia. }
    rewrite (drop_beyond _ _ Hle), string_append_nil_r.
    rewrite (written_same _ _ _ Hf). cbn [String.length].
    now rewrite Nat.add_0_r.
  - change (String.eqb (String a buffer) EmptyString) with false. cbv iota.
    set (pos' := pos + String.length (String a buffer)) in *.
    unfold bind.
    rewrite (write_run f (String a buffer) c0 (read_to h content pos' w))
      by exact Hf.
    assert (pos' <= String.length content) as Hle'
      by (subst pos'; cbn [String.length] in *; lia).
    rewrite (IH pos' (String.append c0 (String a buffer))).
    + rewrite (written_written f _ _ (File c0) (read_to h content pos' w))
        by exact Hf.
      rewrite <- (read_to_written h content pos'), read_to_read_to.
      now rewrite string_append_assoc, Hsplit.
    + destruct Hs as [Hs|Hs]; [cbn [String.length] in *; lia|now right].
    + apply (node_at_written _ _ _ _ Hf).
    + cbn [read_to written set_fs set_gdal gdal Gdal.handles].
      apply lookup_insert_eq.
    + exact Hle'.
    + subst pos'. cbn [String.length] in *. lia.
Qed.

End VsiCopy.

Section VsiCopyRun.

Import OS Tree FileExtractor VsiFileExtractor.
Context `{B : Builtins}.

(** Whether [open(path, 'wb')] succeeds depends on the files only. *)
Lemma open_wb_fs path w w' f w2 :
  fs w' = fs w -> os.open_wb path w = (Ok f, w2) ->
  os.open_wb path w' = (Ok path, written path EmptyString w').
Proof.
  intros E H. unfold written. unfold os.open_wb, os.node_at in *.
  rewrite E. destruct path as [|a path]; [discriminate|].
  destruct (resolve (String a path)) as [|c q]; [discriminate|].
  destruct (lookup (c :: q) (fs w)) as [[s|es]|]; try discriminate;
    destruct (is_dir _); try discriminate; reflexivity.
Qed.

Lemma VSIFSeekL_run h content pos offset whence w :
  Gdal.handles (gdal w) !! h = Some (Gdal.mkHandle content pos) ->
  gdal.VSIFSeekL (Some h) offset whence w =
    (Ok tt,
     read_to h content
       (Z.to_nat ((if (whence =? 2)%Z then Z.of_nat (String.length content)
                   else if (whence =? 1)%Z then Z.of_nat pos else 0) + offset))
       w).
Proof.
  intros Hh. unfold gdal.VSIFSeekL, bind, gdal.get_handle. now rewrite Hh.
Qed.

Lemma VSIFTellL_run h content pos w :
  Gdal.handles (gdal w) !! h = Some (Gdal.mkHandle content pos) ->
  gdal.VSIFTellL (Some h) w = (Ok (Z.of_nat pos), w).
Proof.
  intros Hh. unfold gdal.VSIFTellL, bind, gdal.get_handle. now rewrite Hh.
Qed.

Lemma read_to_handle h content pos w :
  Gdal.handles (gdal (read_to h content pos w)) !! h =
    Some (Gdal.mkHandle content pos).
Proof. apply lookup_insert_eq. Qed.

(** The [with] block on an open handle, up to the read loop. *)
Lemma extract_with_run self0 packet out f content h pos l w w2 :
  output_path self0 (Some packet) = Ok out ->
  os.open_wb out w = (Ok f, w2) ->
  Gdal.handles (gdal w) !! h = Some (Gdal.mkHandle content pos) ->
  let len := Z.of_nat (String.length content) in
  let read_size := if (len <? buffer_size self0)%Z
                   then len else buffer_size self0 in
  extract_with self0 packet (Some h) (mkSt l w) =
    let (r, w5) := read_loop (S (String.length content)) read_size (Some h)
                     out (read_to h content 0 w2) in
    (r, mkSt (mkLocals (vsi l) len) w5).
Proof.
  intros Hp Ho Hh len read_size.
  destruct (open_wb_ok _ _ _ _ Ho) as (-> & _ & -> & _).
  unfold extract_with. unfold bind at 1. unfold lift at 1. rewrite Hp.
  unfold bind at 1. unfold in_world at 1. cbn [world]. rewrite Ho.
  unfold bind at 1. unfold in_world at 1. cbn [world set_world].
  rewrite (VSIFSeekL_run h content pos) by exact Hh.
  unfold bind at 1. unfold in_world at 1. cbn [world set_world].
  rewrite (VSIFTellL_run h content _ _ (read_to_handle _ _ _ _)).
  unfold bind at 1. unfold set_vsi_len at 1.
  unfold bind at 1. unfold in_world at 1. cbn [world set_world set_self].
  rewrite (VSIFSeekL_run h content _ _ _ _ (read_to_handle _ _ _ _)).
  unfold in_world. cbn [world set_world self vsi].
  rewrite !read_to_read_to.
  change (Z.to_nat ((if (0 =? 2)%Z then Z.of_nat (String.length content)
                     else if (0 =? 1)%Z then _ else 0) + 0)) with 0.
  change (if (2 =? 2)%Z then Z.of_nat (String.length content) else _)
    with (Z.of_nat (String.length content)).
  rewrite Z.add_0_r, !Nat2Z.id. fold len. fold read_size.
  reflexivity.
Qed.

Lemma closed_read_to h content pos w :
  Gdal.handles (gdal w) !! h = None -> closed h (read_to h content pos w) = w.
Proof.
  intros Hh. destruct w as [r l [vf hs]]. unfold closed, read_to, set_gdal.
  cbn in *. now rewrite (delete_insert_id _ _ _ Hh).
Qed.

(** The whole call, up to the read loop, when GDAL opens the path and the
    output file can be created. *)
Lemma extract_file_run self0 packet p content out f w w2 k w6 :
  data packet = DStr p ->
  Gdal.vsi_files (gdal w) !! p = Some content ->
  output_path self0 (Some packet) = Ok out ->
  os.open_wb out w = (Ok f, w2) ->
  let h := fresh (dom (Gdal.handles (gdal w))) in
  let len := Z.of_nat (String.length content) in
  let read_size := if (len <? buffer_size self0)%Z
                   then len else buffer_size self0 in
  read_loop (S (String.length content)) read_size (Some h) out
    (read_to h content 0 (add_log w2 (info_extracting p)))
    = (Ok tt, read_to h content k w6) ->
  extract_file self0 packet w =
    (Ok tt, closed h (add_log (read_to h content k w6)
                        (info_extracted p (String.length content)))).
Proof.
  intros Hd Hc Hp Ho h len read_size Hloop.
  destruct (open_wb_ok _ _ _ _ Ho) as (_ & _ & -> & _).
  set (w0 := add_log w (info_extracting p)).
  assert (os.open_wb out (read_to h content 0 w0) =
            (Ok out, written out EmptyString (read_to h content 0 w0))) as Ho1.
  { exact (open_wb_fs out w (read_to h content 0 w0) f _ eq_refl Ho). }
  pose proof (extract_with_run self0 packet out out content h 0
                (mkLocals (Some h) 0) _ _ Hp Ho1 (read_to_handle _ _ _ _))
    as Hwith.
  cbv zeta in Hwith. fold len in Hwith. fold read_size in Hwith.
  rewrite <- read_to_written, read_to_read_to in Hwith.
  change (written out EmptyString w0)
    with (add_log (written out EmptyString w) (info_extracting p)) in Hwith.
  rewrite Hloop in Hwith.
  assert (extract_try self0 packet (DStr p) (mkSt (mkLocals None 0) w) =
            (Ok tt, mkSt (mkLocals (Some h) len) (read_to h content k w6))) as Htry.
  { unfold extract_try, bind, in_world, set_vsi.
    cbn [Log.info Log.emit modify world set_world gdal.VSIFOpenL gdal add_log
         set_self self vsi_len].
    rewrite Hc. exact Hwith. }
  unfold extract_file, try_finally, try_except. rewrite Hd, Htry.
  unfold extract_finally, bind, get_self, in_world, gdal.VSIFCloseL, bind,
    gdal.get_handle.
  cbn [self vsi vsi_len Log.info Log.emit modify world set_world gdal add_log].
  rewrite read_to_handle. reflexivity.
Qed.

(** X13. [VsiFileExtractor.extract_file], for a path GDAL can open and an
    output file that can be created, with a positive [buffer_size]: the
    call returns, the output file holds the bytes of the source, all of
    them and in order, whatever the size of the reads; the log gains the
    lines [Extracting] and [Extracted ... ok] with the length of the
    source, and GDAL is left as it was, the handle closed. *)
Theorem VsiFileExtractor_extract_file_copies (self0 : t) (packet : Packet)
    (p content out f : string) (w w2 : World) :
  data packet = DStr p ->
  Gdal.vsi_files (gdal w) !! p = Some content ->
  output_path self0 (Some packet) = Ok out ->
  os.open_wb out w = (Ok f, w2) ->
  (0 < buffer_size self0)%Z ->
  let w' := add_log (add_log (written out content w2) (info_extracting p))
              (info_extracted p (String.length content)) in
  extract_file self0 packet w = (Ok tt, w') /\
  os.read_file out w' = (Ok content, w') /\
  gdal w' = gdal w.
Proof.
  intros Hd Hc Hp Ho Hb w'.
  set (h := fresh (dom (Gdal.handles (gdal w)))).
  assert (Gdal.handles (gdal w) !! h = None) as Hfresh
    by apply not_elem_of_dom, is_fresh.
  destruct (open_wb_ok _ _ _ _ Ho) as (_ & _ & Hw2 & Hat).
  set (w4 := read_to h content 0 (add_log w2 (info_extracting p))).
  assert (os.node_at w4 out = Some (File EmptyString)) as Hat4 by exact Hat.
  set (read_size := if (Z.of_nat (String.length content) <? buffer_size self0)%Z
                    then Z.of_nat (String.length content)
                    else buffer_size self0).
  assert (String.length content <= 0 \/ (0 < read_size)%Z) as Hrs.
  { subst read_size. destruct (Z.ltb_spec (Z.of_nat (String.length content))
                                 (buffer_size self0)); lia. }
  pose proof (read_loop_copies content read_size out h
                (S (String.length content)) 0 EmptyString w4 Hrs Hat4
                (read_to_handle _ _ _ _) (Nat.le_0_l _) ltac:(lia)) as Hloop.
  rewrite drop_zero in Hloop.
  change (String.append EmptyString content) with content in Hloop.
  pose proof (extract_file_run self0 packet p content out f w w2 _ _
                Hd Hc Hp Ho Hloop) as Hrun.
  change (extract_file self0 packet w =
            (Ok tt, closed h (add_log (read_to h content (String.length content)
                                         (written out content w4))
                                (info_extracted p (String.length content)))))
    in Hrun.
  rewrite Hrun. clear Hrun.
  assert (closed h (add_log (read_to h content (String.length content)
                               (written out content w4))
                      (info_extracted p (String.length content))) = w') as ->.
  { change (add_log (read_to h content (String.length content)
                       (written out content w4))
              (info_extracted p (String.length content)))
      with (read_to h content (String.length content)
              (read_to h content 0 w')).
    rewrite read_to_read_to. apply closed_read_to.
    subst w'. rewrite Hw2. exact Hfresh. }
  split; [reflexivity|]. split.
  - unfold os.read_file.
    change (os.node_at w' out) with (os.node_at (written out content w2) out).
    now rewrite (node_at_written _ _ _ _ Hat).
  - subst w'. now rewrite Hw2.
Qed.

(** X14. With [buffer_size] zero the first [VSIFReadL] gives nothing and
    the loop is left at once: the output file stays empty, and yet the
    call returns normally and logs [Extracted ... ok] with the full length
    of the source. *)
Theorem VsiFileExtractor_extract_file_zero_buffer (self0 : t)
    (packet : Packet) (p content out f : string) (w w2 : World) :
  data packet = DStr p ->
  Gdal.vsi_files (gdal w) !! p = Some content ->
  output_path self0 (Some packet) = Ok out ->
  os.open_wb out w = (Ok f, w2) ->
  buffer_size self0 = 0%Z ->
  let w' := add_log (add_log w2 (info_extracting p))
              (info_extracted p (String.length content)) in
  extract_file self0 packet w = (Ok tt, w') /\
  os.read_file out w' = (Ok EmptyString, w').
Proof.
  intros Hd Hc Hp Ho Hb w'.
  set (h := fresh (dom (Gdal.handles (gdal w)))).
  assert (Gdal.handles (gdal w) !! h = None) as Hfresh
    by apply not_elem_of_dom, is_fresh.
  destruct (open_wb_ok _ _ _ _ Ho) as (_ & _ & Hw2 & Hat).
  set (w4 := read_to h content 0 (add_log w2 (info_extracting p))).
  set (read_size := if (Z.of_nat (String.length content) <? buffer_size self0)%Z
                    then Z.of_nat (String.length content)
                    else buffer_size self0).
  assert (read_size = 0%Z) as Hrs.
  { subst read_size. rewrite Hb.
    destruct (Z.ltb_spec (Z.of_nat (String.length content)) 0); lia. }
  assert (read_loop (S (String.length content)) read_size (Some h) out w4 =
            (Ok tt, read_to h content 0 w4)) as Hloop.
  { cbn [read_loop]. unfold bind.
    rewrite (VSIFReadL_run h content 0 _ _ w4 (read_to_handle _ _ _ _)).
    rewrite Hrs. cbv zeta. change (Z.to_nat (1 * 0)) with 0.
    rewrite substring_zero. reflexivity. }
  pose proof (extract_file_run self0 packet p content out f w w2 _ _
                Hd Hc Hp Ho Hloop) as Hrun.
  change (extract_file self0 packet w =
            (Ok tt, closed h (add_log (read_to h content 0 w4)
                                (info_extracted p (String.length content)))))
    in Hrun.
  rewrite Hrun. clear Hrun.
  assert (closed h (add_log (read_to h content 0 w4)
                      (info_extracted p (String.length content))) = w') as ->.
  { change (add_log (read_to h content 0 w4)
              (info_extracted p (String.length content)))
      with (read_to h content 0 (read_to h content 0 w')).
    rewrite read_to_read_to. apply closed_read_to.
    subst w'. rewrite Hw2. exact Hfresh. }
  split; [reflexivity|].
  unfold os.read_file. change (os.node_at w' out) with (os.node_at w2 out).
  now rewrite Hat.
Qed.

End VsiCopyRun.

Section VsiCopyExamples.

Import OS Tree FileExtractor VsiFileExtractor Sample.

(** X13 on [Sample.vsi_world]: six bytes, read four at a time. *)
Lemma VsiFileExtractor_extract_file_copies_witness :
  let self0 := mk "out.xml" true 4 in
  let packet := packet_of (DStr vsi_path) in
  fst (extract_file self0 packet vsi_world) = Ok tt /\
  fst (os.read_file "out.xml" (snd (extract_file self0 packet vsi_world)))
    = Ok "<xml/>" /\
  log (snd (extract_file self0 packet vsi_world))
    = [info_extracting vsi_path; info_extracted vsi_path 6].
Proof.
  intros self0 packet.
  destruct (VsiFileExtractor_extract_file_copies self0 packet vsi_path
              "<xml/>" "out.xml" "out.xml" vsi_world
              (written "out.xml" EmptyString vsi_world))
    as (He & Hr & _); try reflexivity.
  rewrite He. cbn [fst snd]. rewrite Hr. repeat split; reflexivity.
Defined.

(** X14 on [Sample.vsi_world]: nothing is copied and the log says [ok]. *)
Lemma VsiFileExtractor_extract_file_zero_buffer_witness :
  let self0 := mk "out.xml" true 0 in
  let packet := packet_of (DStr vsi_path) in
  fst (extract_file self0 packet vsi_world) = Ok tt /\
  fst (os.read_file "out.xml" (snd (extract_file self0 packet vsi_world)))
    = Ok EmptyString /\
  log (snd (extract_file self0 packet vsi_world))
    = [info_extracting vsi_path; info_extracted vsi_path 6].
Proof.
  intros self0 packet.
  destruct (VsiFileExtractor_extract_file_zero_buffer self0 packet vsi_path
              "<xml/>" "out.xml" "out.xml" vsi_world
              (written "out.xml" EmptyString vsi_world))
    as (He & Hr); try reflexivity.
  rewrite He. cbn [fst snd]. rewrite Hr. repeat split; reflexivity.
Defined.

End VsiCopyExamples.

(** ** Cleaning up after the chain *)

Section Cleanup.

Import OS Tree FileExtractor.
Context `{B : Builtins}.

(** A call of [invoke] that returned a packet with data went through the
    extraction, and the packet names the output file, which is there. *)
Lemma invoke_returned cls self0 packet packet' w w' :
  invoke cls self0 packet w = (Ok packet', w') ->
  data packet' <> DNone ->
  exists p, m_output_path cls self0 (Some packet) = Ok p /\
            packet' = set_data packet (DStr p) /\
            is_file (os.node_at w' p) = true.
Proof.
  intros Hi Hd.
  destruct (is_None (data packet)) eqn:En.
  { unfold invoke in Hi. rewrite En in Hi.
    unfold bind in Hi. cbn [Log.info Log.emit modify ret] in Hi.
    injection Hi as <- _. destruct (data packet); try discriminate.
    now elim Hd. }
  assert (data packet <> DNone) as Hne by (intros E; now rewrite E in En).
  destruct (m_output_path cls self0 (Some packet)) as [p|e|] eqn:Hp.
  - exists p. split; [reflexivity|].
    destruct (m_extract_file cls self0 packet (target_deleted p w))
      as [r w2] eqn:He.
    rewrite (invoke_with_data _ _ _ _ _ _ _ Hne Hp He) in Hi.
    destruct r as [[]|e|]; try discriminate.
    destruct (is_file (os.node_at w2 p)) eqn:Ef.
    + injection Hi as <- <-. now split.
    + injection Hi as <- _. now elim Hd.
  - unfold invoke in Hi. rewrite En in Hi.
    unfold bind at 1 in Hi. unfold delete_target_file, bind, lift in Hi.
    rewrite Hp in Hi. discriminate.
  - unfold invoke in Hi. rewrite En in Hi.
    unfold bind at 1 in Hi. unfold delete_target_file, bind, lift in Hi.
    rewrite Hp in Hi. discriminate.
Qed.

Lemma after_chain_invoke_run cls self0 packet q w :
  delete_file self0 = true ->
  m_output_path cls self0 packet = Ok q ->
  after_chain_invoke cls self0 packet w = (Ok (VBool true), unlinked q w).
Proof.
  intros Hdel Hq. unfold after_chain_invoke. rewrite Hdel. cbn [negb].
  unfold bind. now rewrite (delete_target_file_run _ _ _ _ _ Hq).
Qed.

(** X15. [ZipFileExtractor]: the clean-up after a call of [invoke] that
    returned a packet with data. The packet now carries a [str], so
    [output_path] gives [file_path] as it is configured, and
    [after_chain_invoke] unlinks what is found there: with a static
    [file_path] that is the extracted file, which is gone afterwards; with
    a [file_path] that holds [%s] it is the file literally so named, and
    the extracted file, at a path apart from it, stays. *)
Theorem ZipFileExtractor_cleanup_after_invoke `{ZL : ZipLib} (self0 : t)
    (packet packet' : Packet) (w w' : World) :
  delete_file self0 = true ->
  invoke ZipFileExtractor.methods self0 packet w = (Ok packet', w') ->
  data packet' <> DNone ->
  exists p,
    data packet' = DStr p /\
    is_file (os.node_at w' p) = true /\
    after_chain_invoke ZipFileExtractor.methods self0 (Some packet') w' =
      (Ok (VBool true), unlinked (file_path self0) w') /\
    (Str.contains "%s" (file_path self0) = false ->
     p = file_path self0 /\
     (wf_root (fs w') = true ->
      is_file (os.node_at (unlinked (file_path self0) w') p) = false)) /\
    (apart (resolve (file_path self0)) (resolve p) = true ->
     is_file (os.node_at (unlinked (file_path self0) w') p) = true).
Proof.
  intros Hdel Hi Hd.
  destruct (invoke_returned _ _ _ _ _ _ Hi Hd) as (p & Hp & -> & Hf).
  exists p. split; [reflexivity|]. split; [exact Hf|]. split; [|split].
  - now apply after_chain_invoke_run.
  - intros Hs. cbn in Hp. unfold ZipFileExtractor.output_path in Hp.
    cbn [packet_data] in Hp.
    assert (p = file_path self0) as ->.
    { destruct (data packet); try rewrite Hs in Hp; now injection Hp. }
    split; [reflexivity|]. apply unlinked_gone.
  - intros Ha. now rewrite (unlinked_apart _ _ _ Ha).
Qed.

(** X16. [VsiFileExtractor]: the clean-up after a call of [invoke] that
    returned a packet with data. With a [file_path] that holds [%s],
    [output_path] now formats the output path of [invoke] itself into the
    pattern, and [after_chain_invoke] unlinks what is found at that name:
    the extracted file, at a path apart from it, stays. With a static
    [file_path] the extracted file is gone afterwards. *)
Theorem VsiFileExtractor_cleanup_after_invoke (self0 : t)
    (packet packet' : Packet) (w w' : World) :
  delete_file self0 = true ->
  invoke VsiFileExtractor.methods self0 packet w = (Ok packet', w') ->
  data packet' <> DNone ->
  exists p,
    data packet' = DStr p /\
    is_file (os.node_at w' p) = true /\
    (Str.contains "%s" (file_path self0) = false ->
     p = file_path self0 /\
     after_chain_invoke VsiFileExtractor.methods self0 (Some packet') w' =
       (Ok (VBool true), unlinked p w') /\
     (wf_root (fs w') = true ->
      is_file (os.node_at (unlinked p w') p) = false)) /\
    (forall q, Str.contains "%s" (file_path self0) = true ->
     str_mod (file_path self0) (safe_filename p) = inr q ->
     after_chain_invoke VsiFileExtractor.methods self0 (Some packet') w' =
       (Ok (VBool true), unlinked q w') /\
     (apart (resolve q) (resolve p) = true ->
      is_file (os.node_at (unlinked q w') p) = true)).
Proof.
  intros Hdel Hi Hd.
  destruct (invoke_returned _ _ _ _ _ _ Hi Hd) as (p & Hp & -> & Hf).
  exists p. split; [reflexivity|]. split; [exact Hf|]. split.
  - intros Hs. cbn in Hp. unfold VsiFileExtractor.output_path in Hp.
    cbn [packet_data] in Hp.
    assert (p = file_path self0) as ->.
    { destruct (data packet); try rewrite Hs in Hp; now injection Hp. }
    split; [reflexivity|]. split; [|apply unlinked_gone].
    apply after_chain_invoke_run; [exact Hdel|].
    cbn. unfold VsiFileExtractor.output_path. cbn. now rewrite Hs.
  - intros q Hs Hq. split.
    + apply after_chain_invoke_run; [exact Hdel|].
      cbn. unfold VsiFileExtractor.output_path. cbn. now rewrite Hs, Hq.
    + intros Ha. now rewrite (unlinked_apart _ _ _ Ha).
Qed.

End Cleanup.

Section CleanupExamples.

Import OS Tree FileExtractor Sample.

(** X15 on [Sample.tree]: with [out_%s] the member is extracted to
    [out_member.txt], and the clean-up leaves it there. *)
Lemma ZipFileExtractor_cleanup_after_invoke_witness :
  let self0 := mk "out_%s" true 2 in
  let w := world_of tree in
  let packet' := set_data member_packet (DStr "out_member.txt") in
  let w' := snd (invoke ZipFileExtractor.methods self0 member_packet w) in
  invoke ZipFileExtractor.methods self0 member_packet w = (Ok packet', w') /\
  after_chain_invoke ZipFileExtractor.methods self0 (Some packet') w' =
    (Ok (VBool true), w') /\
  os.read_file "out_member.txt" w' = (Ok "hello", w').
Proof.
  intros self0 w packet' w'.
  assert (invoke ZipFileExtractor.methods self0 member_packet w =
            (Ok packet', w')) as Hi by reflexivity.
  destruct (ZipFileExtractor_cleanup_after_invoke self0 member_packet packet'
              w w' eq_refl Hi ltac:(discriminate))
    as (p & Hd & _ & Ha & _).
  split; [exact Hi|]. split; [|reflexivity].
  rewrite Ha. reflexivity.
Defined.

(** X16 on [Sample.vsi_world]: with [out_%s] the clean-up looks for
    [out_out__vsizip__in.zip__x.xml], and the extracted file stays. *)
Lemma VsiFileExtractor_cleanup_after_invoke_witness :
  let self0 := mk "out_%s" true 4 in
  let packet := packet_of (DStr vsi_path) in
  let packet' := set_data packet (DStr "out__vsizip__in.zip__x.xml") in
  let w' := snd (invoke VsiFileExtractor.methods self0 packet vsi_world) in
  invoke VsiFileExtractor.methods self0 packet vsi_world = (Ok packet', w') /\
  after_chain_invoke VsiFileExtractor.methods self0 (Some packet') w' =
    (Ok (VBool true), unlinked "out_out__vsizip__in.zip__x.xml" w') /\
  is_file (os.node_at (unlinked "out_out__vsizip__in.zip__x.xml" w')
             "out__vsizip__in.zip__x.xml") = true.
Proof.
  intros self0 packet packet' w'.
  assert (invoke VsiFileExtractor.methods self0 packet vsi_world =
            (Ok packet', w')) as Hi by reflexivity.
  destruct (VsiFileExtractor_cleanup_after_invoke self0 packet packet'
              vsi_world w' eq_refl Hi ltac:(discriminate))
    as (p & Hd & _ & _ & Hq).
  injection Hd as <-.
  destruct (Hq "out_out__vsizip__in.zip__x.xml" eq_refl eq_refl) as [Ha Hs].
  split; [exact Hi|]. split; [exact Ha|]. now apply Hs.
Defined.

End CleanupExamples.

(** ** The driver on a missing file and on a failing chain *)

Section DriverEdges.

Import OS ETL.
Context `{B : Builtins} `{L : ConfigParser.Lib} `{S : Setl}.

Lemma read_file_missing f w :
  is_file (os.node_at w f) = false -> os.read_file f w = (Raise OSError, w).
Proof.
  unfold os.read_file. now destruct (os.node_at w f) as [[|]|].
Qed.

(** [__init__] when [config_file] names no regular file. *)
Lemma init_missing_file (options : Options) (args : option (list string))
    (w : World) :
  let f := config_file options in
  is_file (os.node_at w f) = false ->
  init options args w =
    (Ok (mk ConfigParser.new),
     if truthy_args args
     then add_log (add_log w (info_config_file f)) (warning_cannot_read f)
     else add_log w (info_config_file f)).
Proof.
  intros f Hf. unfold init, bind. cbn [Log.info Log.emit modify].
  unfold try_except_all, init_try. fold f. fold (info_config_file f).
  assert (os.read_file f (add_log w (info_config_file f)) =
            (Raise OSError, add_log w (info_config_file f))) as Hr
    by now apply read_file_missing.
  destruct (truthy_args args).
  - unfold bind, in_world. cbn [world]. rewrite Hr. reflexivity.
  - unfold read. cbn [world]. rewrite Hr. reflexivity.
Qed.

Lemma get_no_section option :
  ConfigParser.get ConfigParser.new "etl" option = Raise NoSectionError.
Proof. reflexivity. Qed.

(** X17. The driver on a configuration file that is not there. The
    constructor returns normally with an empty store; the warning
    [Cannot read config file] is logged only when arguments were given,
    without them the missing file is passed over in silence. [run] on the
    object so built logs [START], starts the timer and raises
    [NoSectionError] from the lookup of [chains]. *)
Theorem ETL_missing_config_file (options : Options)
    (args : option (list string)) (w : World) :
  let f := config_file options in
  is_file (os.node_at w f) = false ->
  exists etl w1,
    init options args w = (Ok etl, w1) /\
    configdict etl = ConfigParser.new /\
    fs w1 = fs w /\
    log w1 = log w ++ info_config_file f ::
               (if truthy_args args then [warning_cannot_read f] else []) /\
    (forall t1 w2,
       startTimer "total ETL" (add_log w1 (mkLog INFO "START" [])) = (Ok t1, w2) ->
       run etl w1 = (Raise NoSectionError, w2)).
Proof.
  intros f Hf. eexists _, _. split; [apply (init_missing_file _ _ _ Hf)|].
  fold f. split; [reflexivity|]. split; [now destruct (truthy_args args)|].
  split.
  - destruct (truthy_args args); cbn [log add_log]; [|reflexivity].
    now rewrite <- app_assoc.
  - intros t1 w2 Ht. apply (run_get_raises _ _ _ _ t1); [|exact Ht].
    apply get_no_section.
Qed.

(** X18. [run] stops at the first entry of [chains] whose chain fails,
    while it is built, assembled or run: the exception reaches the caller
    in the world the failure left. The entries after it are not looked at,
    the timer is not ended and [ALL DONE] is not logged. *)
Theorem ETL_run_stops_at_first_failure (self0 : t) (chains_str : string)
    (before after : list string) (chain_str : string) (e : exn)
    (t1 : Timer) (w w1 w2 w3 : World) :
  ConfigParser.get (configdict self0) "etl" "chains" = Ok chains_str ->
  chains_str <> EmptyString ->
  Str.split "," chains_str = before ++ chain_str :: after ->
  startTimer "total ETL" (add_log w (mkLog INFO "START" [])) = (Ok t1, w1) ->
  run_chains (configdict self0) before w1 = (Ok tt, w2) ->
  run_chains (configdict self0) [chain_str] w2 = (Raise e, w3) ->
  run self0 w = (Raise e, w3).
Proof.
  intros Hg Hne Hsplit Ht Hb Hc.
  rewrite (run_with_chains self0 chains_str w Hg Hne).
  unfold bind at 1. cbn [Log.info Log.emit modify].
  unfold bind at 1. rewrite Ht.
  unfold bind at 1. rewrite Hsplit, run_chains_app.
  unfold bind at 1. rewrite Hb.
  change (chain_str :: after) with ([chain_str] ++ after).
  rewrite run_chains_app. unfold bind at 1. now rewrite Hc.
Qed.

End DriverEdges.

Section DriverEdgesExamples.

Import OS ETL Sample.

(** X17 on [Sample.tree], without arguments: one log line, then
    [NoSectionError]. *)
Lemma ETL_missing_config_file_witness :
  let w := world_of tree in
  let options := {| config_file := "missing.ini" |} in
  log (snd (init options None w)) = [info_config_file "missing.ini"] /\
  fst (run (mk ConfigParser.new) (snd (init options None w)))
    = Raise NoSectionError.
Proof.
  intros w options.
  destruct (ETL_missing_config_file options None w eq_refl)
    as (etl & w1 & Hi & Hc & _ & Hl & Hrun).
  rewrite Hi. cbn [snd]. split; [exact Hl|].
  destruct etl as [c]. cbn in Hc. subst c.
  now rewrite (Hrun _ _ eq_refl).
Defined.

(** X18 with [Sample.strict_setl] on [a,,b]: the chain [a] is run, the
    empty entry fails, and neither [b] nor the end of the timer follows. *)
Lemma ETL_run_stops_at_first_failure_witness :
  let w := world_of tree in
  fst (@run configparser strict_setl (mk gap_chains) w) = Raise ValueError /\
  map (fun r => (template r, log_args r))
      (log (snd (@run configparser strict_setl (mk gap_chains) w))) =
    [("START", []);
     ("startTimer", [DStr "total ETL"]);
     ("Chain.__init__", [DStr "a"]);
     ("Chain.assemble", [DStr "a"]);
     ("Chain.run", [DStr "a"])].
Proof.
  intros w.
  assert (exists w3,
            @run configparser strict_setl (mk gap_chains) w
              = (Raise ValueError, w3) /\
            map (fun r => (template r, log_args r)) (log w3) =
              [("START", []);
               ("startTimer", [DStr "total ETL"]);
               ("Chain.__init__", [DStr "a"]);
               ("Chain.assemble", [DStr "a"]);
               ("Chain.run", [DStr "a"])]) as (w3 & Hr & Hl).
  { eexists. split.
    - eapply (ETL_run_stops_at_first_failure (S := strict_setl)
                (mk gap_chains) "a,,b" ["a"] ["b"] EmptyString ValueError);
        [vm_compute; reflexivity | discriminate | vm_compute; reflexivity
        | lazy; reflexivity | lazy; reflexivity | lazy; reflexivity].
    - vm_compute. reflexivity. }
  rewrite Hr. split; [reflexivity|exact Hl].
Defined.

End DriverEdgesExamples.

(** ** [ArchiveExpander]: the clean-up and the target directory *)

Section ArchiveExpanderCleanup.

Import OS Tree ArchiveExpander.
Context `{B : Builtins}.

(** A call of [invoke] that returned a packet with data went through the
    expansion: the packet names the target directory, which is one, and
    the object has stored the input. *)
Lemma expander_invoke_returned cls packet s packet' s' :
  invoke cls packet s = (Ok packet', s') ->
  data packet' <> DNone ->
  exists p, output_path (self s) (Some packet) = Ok p /\
            packet' = set_data packet (DStr p) /\
            is_dir (os.node_at (world s') p) = true /\
            self s' = set_input_archive_file (self s) (data packet).
Proof.
  intros Hi Hd'.
  destruct (is_None (data packet)) eqn:En.
  { unfold invoke in Hi. rewrite En in Hi. unfold bind, in_world in Hi.
    cbn [Log.info Log.emit modify ret] in Hi. injection Hi as <- _.
    destruct (data packet); try discriminate. now elim Hd'. }
  assert (data packet <> DNone) as Hd by (intros E; now rewrite E in En).
  destruct (output_path (self s) (Some packet)) as [p|e|] eqn:Hp.
  2,3: unfold invoke in Hi; rewrite En in Hi;
       unfold bind, get_self, lift in Hi; rewrite Hp in Hi; discriminate.
  destruct (wipe_dir p (world s)) as [[[]|e|] w1] eqn:Hw.
  2: now rewrite (invoke_wipe_raises cls _ _ _ _ _ Hd Hp Hw) in Hi.
  2:{ unfold invoke in Hi. rewrite En in Hi.
      unfold bind at 1 in Hi. unfold get_self at 1 in Hi.
      unfold bind at 1 in Hi. unfold lift at 1 in Hi. rewrite Hp in Hi.
      unfold bind at 1 in Hi. rewrite (in_world_run _ _ _ _ Hw) in Hi.
      discriminate. }
  destruct (m_expand_archive cls (data packet) p w1) as [r w2] eqn:He.
  rewrite (invoke_steps cls _ _ _ _ _ _ Hd Hp Hw He) in Hi. cbv zeta in Hi.
  destruct r as [[]|e|]; try discriminate.
  destruct (os.node_at w2 p) as [[c|[|e es]]|] eqn:Hn; try discriminate.
  - injection Hi as <- _. now elim Hd'.
  - injection Hi as <- <-. exists p. repeat split.
    cbn [world]. change (os.node_at (add_log w2 _) p) with (os.node_at w2 p).
    now rewrite Hn.
Qed.

(** X19. [ArchiveExpander.after_chain_invoke] with [remove_input_file] on
    and no input stored raises [TypeError] from [os.path.isfile(None)],
    and nothing is cleared: this is so on a new object, and still so after
    [invoke] passed an empty packet on. *)
Theorem ArchiveExpander_cleanup_without_input (cls : Methods)
    (packet : Packet) (last : option Packet) (s : St t) :
  remove_input_file (self s) = true ->
  input_archive_file (self s) = DNone ->
  data packet = DNone ->
  after_chain_invoke last s = (Raise TypeError, s) /\
  exists s', invoke cls packet s = (Ok packet, s') /\
             after_chain_invoke last s' = (Raise TypeError, s').
Proof.
  intros Hr Hin Hd.
  assert (forall w, after_chain_invoke last (mkSt (self s) w) =
                      (Raise TypeError, mkSt (self s) w)) as Ha.
  { intros w. unfold after_chain_invoke, bind, get_self. cbn [self].
    rewrite Hr, Hin. reflexivity. }
  split.
  - destruct s as [self0 w]. apply Ha.
  - eexists. split; [|apply Ha].
    unfold invoke. rewrite Hd. reflexivity.
Qed.

(** X20. [ArchiveExpander.after_chain_invoke] with [clear_target_dir] on,
    after a call of [invoke] that returned a packet with data, which then
    names the target directory [p]. With a static [target_dir] and a
    well-formed file system, a directory [p] that holds regular files only
    is emptied. With a [target_dir] that holds [%s], the path wiped is the
    pattern filled with the name of [p] itself: when that is no
    directory, nothing is cleared and the call returns [True] all the
    same. *)
Theorem ArchiveExpander_cleanup_clears_target (cls : Methods)
    (packet packet' : Packet) (s s' : St t) :
  remove_input_file (self s) = false ->
  clear_target_dir (self s) = true ->
  invoke cls packet s = (Ok packet', s') ->
  data packet' <> DNone ->
  exists p,
    data packet' = DStr p /\
    is_dir (os.node_at (world s') p) = true /\
    (forall es,
       Str.contains "%s" (target_dir (self s)) = false ->
       wf_node (fs (world s')) = true ->
       os.node_at (world s') p = Some (Dir es) ->
       forallb is_file_entry es = true ->
       p = target_dir (self s) /\
       after_chain_invoke (Some packet') s' =
         (Ok (VBool true),
          mkSt (self s')
               (set_fs (world s')
                  (put (resolve p) (Dir []) (fs (world s')))))) /\
    (forall q,
       Str.contains "%s" (target_dir (self s)) = true ->
       str_mod (target_dir (self s)) (safe_filename p) = inr q ->
       is_dir (os.node_at (world s') q) = false ->
       after_chain_invoke (Some packet') s' = (Ok (VBool true), s')).
Proof.
  intros Hr Hc Hi Hd'.
  destruct (expander_invoke_returned _ _ _ _ _ Hi Hd')
    as (p & Hp & -> & Hdir & Hs).
  exists p. split; [reflexivity|]. split; [exact Hdir|].
  destruct s' as [self1 w1]. cbn [self world] in *. subst self1.
  assert (forall q r w2,
            output_path (self s) (Some (set_data packet (DStr p))) = Ok q ->
            wipe_dir q w1 = (Ok r, w2) ->
            after_chain_invoke (Some (set_data packet (DStr p)))
              (mkSt (set_input_archive_file (self s) (data packet)) w1) =
              (Ok (VBool true),
               mkSt (set_input_archive_file (self s) (data packet)) w2)) as Ha.
  { intros q r w2 Hq Hw. unfold after_chain_invoke.
    unfold bind at 1. unfold get_self at 1.
    cbn [self remove_input_file clear_target_dir set_input_archive_file].
    rewrite Hr, Hc. unfold bind at 1. unfold ret at 1.
    unfold bind at 1. unfold bind at 1. unfold lift at 1.
    change (output_path (set_input_archive_file (self s) (data packet)))
      with (output_path (self s)).
    rewrite Hq.
    rewrite (in_world_run (wipe_dir q) (mkSt _ w1) _ _ Hw). reflexivity. }
  split.
  - intros es Hs Hwf Hn Hfiles.
    assert (p = target_dir (self s)) as Ep.
    { unfold output_path in Hp. cbn [packet_data] in Hp.
      destruct (data packet); try rewrite Hs in Hp; now injection Hp. }
    split; [exact Ep|].
    apply (Ha p tt).
    + unfold output_path. cbn [packet_data data set_data]. now rewrite Hs, Ep.
    + rewrite (wipe_dir_tree _ _ _ Hwf Hn).
      now rewrite wipe_tree_Dir, (wipe_entries_files _ Hfiles).
  - intros q Hs Hq Hnd. apply (Ha q tt).
    + unfold output_path. cbn [packet_data data set_data]. now rewrite Hs, Hq.
    + now apply wipe_dir_not_dir.
Qed.

End ArchiveExpanderCleanup.

Section ArchiveExpanderCleanupExamples.

Import OS Tree ArchiveExpander Sample.

(** X19 on [Sample.tree]: a new object, and an empty packet. *)
Lemma ArchiveExpander_cleanup_without_input_witness :
  let s := mkSt (init "files" true true) (world_of tree) in
  let packet := packet_of DNone in
  fst (after_chain_invoke None s) = Raise TypeError /\
  fst (after_chain_invoke (Some packet)
         (snd (invoke ZipArchiveExpander.methods packet s)))
    = Raise TypeError.
Proof.
  intros s packet.
  destruct (ArchiveExpander_cleanup_without_input ZipArchiveExpander.methods
              packet None s eq_refl eq_refl eq_refl) as [Ha _].
  destruct (ArchiveExpander_cleanup_without_input ZipArchiveExpander.methods
              packet (Some packet) s eq_refl eq_refl eq_refl)
    as (_ & s' & Hi & Hb).
  rewrite Ha, Hi. cbn [fst snd]. now rewrite Hb.
Defined.

(** X20 on [Sample.tree]: [in.zip] is expanded into [files], which the
    clean-up empties again. *)
Lemma ArchiveExpander_cleanup_clears_target_witness :
  let cls := ZipArchiveExpander.methods in
  let s := mkSt (init "files" false true) (world_of tree) in
  let packet := packet_of (DStr "in.zip") in
  let packet' := set_data packet (DStr "files") in
  let s' := snd (invoke cls packet s) in
  invoke cls packet s = (Ok packet', s') /\
  fst (os.listdir "files" (world s')) = Ok ["member.txt"] /\
  fst (after_chain_invoke (Some packet') s') = Ok (VBool true) /\
  fst (os.listdir "files" (world (snd (after_chain_invoke (Some packet') s'))))
    = Ok [].
Proof.
  intros cls s packet packet' s'.
  assert (invoke cls packet s = (Ok packet', s')) as Hi by reflexivity.
  destruct (ArchiveExpander_cleanup_clears_target cls packet packet' s s'
              eq_refl eq_refl Hi ltac:(discriminate))
    as (p & Hd & _ & Hstatic & _).
  injection Hd as <-.
  destruct (Hstatic [("member.txt", File "hello")] eq_refl eq_refl eq_refl
              eq_refl) as [_ Ha].
  split; [exact Hi|]. split; [reflexivity|].
  rewrite Ha. split; reflexivity.
Defined.

End ArchiveExpanderCleanupExamples.
